(** * Levelled logger of [log/logger.go]

    A shallow embedding of the logger: the severity ranks and their names,
    the logger objects (held by reference, so that a derived module and its
    parent are two objects), the output sinks and the Riemann clients they
    refer to, and the twelve entry points [Fatalf] .. [Traceln]. *)

From stdpp Require Import base option list strings gmap.
From Stdlib Require Import ZArith Ascii String Lia.

Local Open Scope string_scope.
Local Open Scope Z_scope.

(** ** Go's library: [strings.ToUpper] *)

Module GoStrings.

(** A Go string is a sequence of bytes: [string] with one [ascii] per byte.
    [c < utf8.RuneSelf], that is [c < 0x80]. *)
Definition isASCIIByte (c : ascii) : bool :=
  match c with Ascii _ _ _ _ _ _ _ b7 => negb b7 end.

Fixpoint isASCII (s : string) : bool :=
  match s with
  | EmptyString => true
  | String c r => isASCIIByte c && isASCII r
  end.

(** [if 'a' <= c && c <= 'z' { c -= 'a' - 'A' }] *)
Definition upperByte (c : ascii) : ascii :=
  let n := N_of_ascii c in
  if ((97 <=? n) && (n <=? 122))%N then ascii_of_N (n - 32) else c.

Fixpoint upperASCII (s : string) : string :=
  match s with
  | EmptyString => EmptyString
  | String c r => String (upperByte c) (upperASCII r)
  end.

Section ToUpper.
(** A string with a byte outside ASCII is upper-cased rune by rune with
    Unicode's tables, [strings.Map(unicode.ToUpper, s)]; the tables are not
    part of this development and [unicodeUpper] stands for that call. *)
Variable unicodeUpper : string -> string.

Definition ToUpper (s : string) : string :=
  if isASCII s then upperASCII s else unicodeUpper s.
End ToUpper.

(** Two strings that differ in the case of ASCII letters only. *)
Fixpoint caseVariant (s t : string) : Prop :=
  match s, t with
  | EmptyString, EmptyString => True
  | String a s', String b t' => upperByte a = upperByte b /\ caseVariant s' t'
  | _, _ => False
  end.

(** [strings.ToLower], built like [ToUpper]:
    [if 'A' <= c && c <= 'Z' { c += 'a' - 'A' }] on ASCII strings, and
    [strings.Map(unicode.ToLower, s)] on the others. *)
Definition lowerByte (c : ascii) : ascii :=
  let n := N_of_ascii c in
  if ((65 <=? n) && (n <=? 90))%N then ascii_of_N (n + 32) else c.

Fixpoint lowerASCII (s : string) : string :=
  match s with
  | EmptyString => EmptyString
  | String c r => String (lowerByte c) (lowerASCII r)
  end.

Definition ToLower (unicodeLower : string -> string) (s : string) : string :=
  if isASCII s then lowerASCII s else unicodeLower s.

End GoStrings.

(** ** Go's library: Unicode's case tables at U+0130 *)

Module GoUnicode.

(** The capital I with a dot above, U+0130, which UTF-8 writes [C4 B0].
    Go's [unicode.CaseRanges] gives it the lower case U+0069, the letter [i],
    and no upper case but itself. *)
Definition dottedI : string := String "196" (String "176" EmptyString).

(** [strings.Map(unicode.ToLower, s)] and [strings.Map(unicode.ToUpper, s)]
    on the strings whose bytes outside ASCII all belong to a U+0130: the
    ASCII letters change case, U+0130 becomes [i] in the one and stays in the
    other.  [None] on any other string. *)
Fixpoint lowerDotted (s : string) : option string :=
  match s with
  | EmptyString => Some EmptyString
  | String c r =>
      if GoStrings.isASCIIByte c then
        option_map (String (GoStrings.lowerByte c)) (lowerDotted r)
      else
        match r with
        | String d r' =>
            if Ascii.eqb c "196" && Ascii.eqb d "176"
            then option_map (String "i") (lowerDotted r')
            else None
        | EmptyString => None
        end
  end.

Fixpoint upperDotted (s : string) : option string :=
  match s with
  | EmptyString => Some EmptyString
  | String c r =>
      if GoStrings.isASCIIByte c then
        option_map (String (GoStrings.upperByte c)) (upperDotted r)
      else
        match r with
        | String d r' =>
            if Ascii.eqb c "196" && Ascii.eqb d "176"
            then option_map (fun out => String c (String d out)) (upperDotted r')
            else None
        | EmptyString => None
        end
  end.

(** The two Unicode paths: the tables above where they apply, and [rest], the
    part of the tables left open, elsewhere. *)
Definition lower (rest : string -> string) (s : string) : string :=
  match lowerDotted s with Some out => out | None => rest s end.

Definition upper (rest : string -> string) (s : string) : string :=
  match upperDotted s with Some out => out | None => rest s end.

End GoUnicode.

(** ** Severity ranks *)

Definition LogOff : Z := 0.
Definition LogFatal : Z := 1.
Definition LogError : Z := 2.
Definition LogWarn : Z := 3.
Definition LogInfo : Z := 4.
Definition LogDebug : Z := 5.
Definition LogTrace : Z := 6.
Definition LogAll : Z := 7.

Definition intToLogLevel (i : Z) : string :=
  if i =? LogOff then "OFF"
  else if i =? LogFatal then "FATAL"
  else if i =? LogError then "ERROR"
  else if i =? LogWarn then "WARN"
  else if i =? LogInfo then "INFO"
  else if i =? LogDebug then "DEBUG"
  else if i =? LogTrace then "TRACE"
  else if i =? LogAll then "ALL"
  else "ALL".


(** ** Go's library: [fmt.Sprintf] *)

Module GoFmt.

(** After a [%], a byte that starts no flag, width, precision or argument
    index and is not [%] itself is the verb of the directive. *)
Definition directiveByte (c : ascii) : bool :=
  existsb (Ascii.eqb c) (list_ascii_of_string "#0+- 123456789.[*%").

Definition plainVerb (c : ascii) : bool :=
  GoStrings.isASCIIByte c && negb (directiveByte c).

(** Formatting with no operand left, on formats whose directives are all of
    the shape [%%] or [%verb]: text is copied, [%%] is a percent sign, a verb
    finds no operand and prints as [%!verb(MISSING)], and a [%] that ends the
    format prints as [%!(NOVERB)].  [None] on any other directive. *)
Fixpoint noOperands (format : string) : option string :=
  match format with
  | EmptyString => Some EmptyString
  | String c rest =>
      if Ascii.eqb c "%" then
        match rest with
        | EmptyString => Some "%!(NOVERB)"
        | String v rest' =>
            if Ascii.eqb v "%" then
              option_map (String "%") (noOperands rest')
            else if plainVerb v then
              option_map (fun out => "%!" +:+ String v ("(MISSING)" +:+ out))
                         (noOperands rest')
            else None
        end
      else option_map (String c) (noOperands rest)
  end.

Section Sprintf.
(** The operands of a call, Go's [...interface{}], and the formatter on the
    calls [noOperands] does not cover. *)
Variable Operand : Type.
Variable formatOperands : string -> list Operand -> string.

Definition Sprintf (format : string) (a : list Operand) : string :=
  match a with
  | [] => match noOperands format with
          | Some out => out
          | None => formatOperands format []
          end
  | _ :: _ => formatOperands format a
  end.
End Sprintf.

(** No [%] in the string. *)
Fixpoint percentFree (s : string) : bool :=
  match s with
  | EmptyString => true
  | String c r => negb (Ascii.eqb c "%") && percentFree r
  end.

End GoFmt.

(** ** Data *)

Record LoggerConfig := {
  Prefix : string;
  LogLevel : string;
  AddTimeStamp : bool
}.

Definition DefaultLoggerConfig : LoggerConfig :=
  {| Prefix := "service"; LogLevel := "INFO"; AddTimeStamp := true |}.

(** [stream] is an [io.Writer] and [riemannClient] a [*RiemannClient]: both
    are references, [None] for [nil]. *)
Record Logger := {
  stream : option positive;
  config : LoggerConfig;
  level : Z;
  riemannClient : option positive
}.

(** Modelled from the spec: the event type is declared in another file of the
    package; its three fields, all strings, are the ones [sendRiemann]
    sets. *)
Record RiemannEvent := {
  Service : string;
  State : string;
  Description : string
}.

(** Modelled from the spec: [ErrClientNil], the NilClient error, declared in
    another file of the package; it is what [UseRiemann] can return besides
    [nil]. *)
Inductive error := ErrClientNil.

(** The store: the logger objects by address, what each sink has been
    written (one entry per [Write], oldest first), the events each Riemann
    client has been sent (oldest first), and how often the clock was read. *)
Record World := {
  loggers : gmap positive Logger;
  sinks : gmap positive (list string);
  clients : gmap positive (list RiemannEvent);
  ticks : nat
}.

(** Nothing allocated, written or sent yet. *)
Definition emptyWorld : World :=
  {| loggers := ∅; sinks := ∅; clients := ∅; ticks := 0 |}.

Definition written (w : World) (sid : positive) : list string :=
  default [] (sinks w !! sid).

Definition sent (w : World) (c : positive) : list RiemannEvent :=
  default [] (clients w !! c).

(** ** Commands on the store; [None] is a run-time panic *)

Definition M (A : Type) : Type := World -> option (A * World).

Definition ret {A} (a : A) : M A := fun w => Some (a, w).

Definition bind {A B} (m : M A) (k : A -> M B) : M B :=
  fun w => match m w with
           | Some (a, w') => k a w'
           | None => None
           end.

Definition panic {A} : M A := fun _ => None.

Notation "'let!' x ':=' m 'in' k" := (bind m (fun x => k))
  (at level 10, x pattern, m at level 100, k at level 200).
Notation "m ';;;' k" := (bind m (fun _ => k))
  (at level 100, k at level 200, right associativity).

(** [*l] *)
Definition deref (l : positive) : M Logger :=
  fun w => match loggers w !! l with
           | Some lg => Some (lg, w)
           | None => None
           end.

(** [*l = lg] *)
Definition assign (l : positive) (lg : Logger) : M unit :=
  fun w => match loggers w !! l with
           | Some _ =>
               Some (tt, {| loggers := <[l := lg]> (loggers w);
                            sinks := sinks w;
                            clients := clients w;
                            ticks := ticks w |})
           | None => None
           end.

(** [&Logger{...}]: a new object at an address not in use. *)
Definition alloc (lg : Logger) : M positive :=
  fun w => let l := fresh (dom (loggers w)) in
           Some (l, {| loggers := <[l := lg]> (loggers w);
                       sinks := sinks w;
                       clients := clients w;
                       ticks := ticks w |}).

(** One [Write] on the sink. *)
Definition Write (sid : positive) (p : string) : M unit :=
  fun w => Some (tt, {| loggers := loggers w;
                        sinks := <[sid := (written w sid ++ [p])%list]> (sinks w);
                        clients := clients w;
                        ticks := ticks w |}).

(** Modelled from the spec: [RiemannClient.SendEvent], declared in another
    file of the package; the logger observes no result of it, and the event
    is recorded as submitted to the client. *)
Definition SendEvent (c : positive) (ev : RiemannEvent) : M unit :=
  fun w => Some (tt, {| loggers := loggers w;
                        sinks := sinks w;
                        clients := <[c := (sent w c ++ [ev])%list]> (clients w);
                        ticks := ticks w |}).

(** ** A sample store *)

Module Sample.

(** Stand-ins for the parts of Go's library left open: upper-casing of ASCII
    letters only, a formatter that returns the format, a clock that stands
    still. *)
Definition upper : string -> string := GoStrings.upperASCII.
Definition format (f : string) (a : list string) : string := f.
Definition clock (n : nat) : string := "2014-05-01T12:00:00Z".

(** A logger of threshold WARN on sink 1 with client 7, at address 5. *)
Definition logger : Logger :=
  {| stream := Some 1%positive;
     config := {| Prefix := "svc"; LogLevel := "WARN"; AddTimeStamp := false |};
     level := LogWarn;
     riemannClient := Some 7%positive |}.

Definition world : World :=
  {| loggers := {[ 5%positive := logger ]};
     sinks := ∅;
     clients := ∅;
     ticks := 0 |}.

(** A timestamping logger of threshold TRACE on sink 1 without client, and
    a logger of threshold WARN on a nil writer; a store with both at
    addresses 6 and 8, beside the first logger. *)
Definition traced : Logger :=
  {| stream := Some 1%positive;
     config := {| Prefix := "job"; LogLevel := "TRACE"; AddTimeStamp := true |};
     level := LogTrace;
     riemannClient := None |}.

Definition mute : Logger :=
  {| stream := None;
     config := {| Prefix := "svc"; LogLevel := "WARN"; AddTimeStamp := false |};
     level := LogWarn;
     riemannClient := Some 7%positive |}.

Definition store : World :=
  {| loggers := <[ 8%positive := mute ]>
                  (<[ 6%positive := traced ]> {[ 5%positive := logger ]});
     sinks := ∅;
     clients := ∅;
     ticks := 0 |}.

(** A configuration whose level is not a level name. *)
Definition verbose : LoggerConfig :=
  {| Prefix := "svc"; LogLevel := "verbose"; AddTimeStamp := false |}.

End Sample.

(** ** The logger *)

Section Logger.
(** Go's library, as far as it is left open: Unicode's upper-casing, the
    formatter on operands, and the clock, [timeNow n] being
    [time.Now().Format(time.RFC3339)] at the [n]-th reading. *)
Variable unicodeUpper : string -> string.
Variable Operand : Type.
Variable formatOperands : string -> list Operand -> string.
Variable timeNow : nat -> string.

Definition logLevelToInt (level : string) : Z :=
  let levelUpper := GoStrings.ToUpper unicodeUpper level in
  if String.eqb levelUpper "OFF" then LogOff
  else if String.eqb levelUpper "FATAL" then LogFatal
  else if String.eqb levelUpper "ERROR" then LogError
  else if String.eqb levelUpper "WARN" then LogWarn
  else if String.eqb levelUpper "INFO" then LogInfo
  else if String.eqb levelUpper "DEBUG" then LogDebug
  else if String.eqb levelUpper "TRACE" then LogTrace
  else if String.eqb levelUpper "ALL" then LogAll
  else -1.

(** The eight names [logLevelToInt] knows. *)
Definition levelNames : list string :=
  ["OFF"; "FATAL"; "ERROR"; "WARN"; "INFO"; "DEBUG"; "TRACE"; "ALL"].

(** Equal case-insensitively, the way [logLevelToInt] compares: equal once
    upper-cased. *)
Definition equalFold (s t : string) : Prop :=
  GoStrings.ToUpper unicodeUpper s = GoStrings.ToUpper unicodeUpper t.

Definition Sprintf : string -> list Operand -> string :=
  GoFmt.Sprintf Operand formatOperands.

(** [time.Now().Format(time.RFC3339)] *)
Definition Now : M string :=
  fun w => Some (timeNow (ticks w),
                 {| loggers := loggers w;
                    sinks := sinks w;
                    clients := clients w;
                    ticks := S (ticks w) |}).

(** [fmt.Fprintf(w, format, a...)]: the formatted text goes to the writer in
    one [Write]; a nil writer panics. *)
Definition Fprintf (w : option positive) (format : string)
    (a : list Operand) : M unit :=
  match w with
  | Some sid => Write sid (Sprintf format a)
  | None => panic
  end.

Definition NewLogger (stream : option positive) (config : LoggerConfig)
    : M positive :=
  alloc {| stream := stream;
           config := config;
           level := logLevelToInt (LogLevel config);
           riemannClient := None |}.

(** [fmt.Sprintf("%v%v", config.Prefix, prefix)] of two strings is their
    concatenation. *)
Definition NewModule (l : positive) (prefix : string) : M positive :=
  let! lg := deref l in
  let config' := {| Prefix := Prefix (config lg) +:+ prefix;
                    LogLevel := LogLevel (config lg);
                    AddTimeStamp := AddTimeStamp (config lg) |} in
  alloc {| stream := stream lg;
           config := config';
           level := level lg;
           riemannClient := riemannClient lg |}.

Definition UseRiemann (l : positive) (client : option positive)
    : M (option error) :=
  match client with
  | None => ret (Some ErrClientNil)
  | Some c =>
      let! lg := deref l in
      assign l {| stream := stream lg;
                  config := config lg;
                  level := level lg;
                  riemannClient := Some c |} ;;;
      ret None
  end.

(** [timestampStr]: empty, or the clock's reading followed by [" | "]. *)
Definition timestampStr (lg : Logger) : M string :=
  if AddTimeStamp (config lg)
  then let! t := Now in ret (t +:+ " | ")
  else ret "".

(** The text [printf] and [printLine] build with
    [fmt.Sprintf("%v%v | %v | %v", timestampStr, level, l.config.Prefix, message)]:
    the four strings with the separators between them. *)
Definition render (ts level prefix message : string) : string :=
  ts +:+ level +:+ " | " +:+ prefix +:+ " | " +:+ message.

Definition printf (l : positive) (message level : string)
    (other : list Operand) : M unit :=
  let! lg := deref l in
  let! ts := timestampStr lg in
  Fprintf (stream lg) (render ts level (Prefix (config lg)) message) other.

Definition printLine (l : positive) (message level : string) : M unit :=
  let! lg := deref l in
  let! ts := timestampStr lg in
  Fprintf (stream lg)
          (render ts level (Prefix (config lg)) message +:+ String "010" "") [].

Definition sendRiemann (l : positive) (message level : string)
    (other : list Operand) : M unit :=
  let! lg := deref l in
  match riemannClient lg with
  | Some c => SendEvent c {| Service := Prefix (config lg);
                             State := level;
                             Description := Sprintf message other |}
  | None => ret tt
  end.

Definition Fatalf (l : positive) (message : string) (other : list Operand)
    : M unit :=
  let! lg := deref l in
  (if LogFatal <=? level lg then printf l message "FATAL" other else ret tt) ;;;
  sendRiemann l message "FATAL" other.

Definition Errorf (l : positive) (message : string) (other : list Operand)
    : M unit :=
  let! lg := deref l in
  (if LogError <=? level lg then printf l message "ERROR" other else ret tt) ;;;
  sendRiemann l message "ERROR" other.

Definition Warnf (l : positive) (message : string) (other : list Operand)
    : M unit :=
  let! lg := deref l in
  (if LogWarn <=? level lg then printf l message "WARN" other else ret tt) ;;;
  sendRiemann l message "WARN" other.

Definition Infof (l : positive) (message : string) (other : list Operand)
    : M unit :=
  let! lg := deref l in
  (if LogInfo <=? level lg then printf l message "INFO" other else ret tt) ;;;
  sendRiemann l message "INFO" other.

Definition Debugf (l : positive) (message : string) (other : list Operand)
    : M unit :=
  let! lg := deref l in
  if LogDebug <=? level lg then printf l message "DEBUG" other else ret tt.

Definition Tracef (l : positive) (message : string) (other : list Operand)
    : M unit :=
  let! lg := deref l in
  if LogTrace <=? level lg then printf l message "TRACE" other else ret tt.

Definition Fatalln (l : positive) (message : string) : M unit :=
  let! lg := deref l in
  (if LogFatal <=? level lg then printLine l message "FATAL" else ret tt) ;;;
  sendRiemann l message "FATAL" [].

Definition Errorln (l : positive) (message : string) : M unit :=
  let! lg := deref l in
  (if LogError <=? level lg then printLine l message "ERROR" else ret tt) ;;;
  sendRiemann l message "ERROR" [].

Definition Warnln (l : positive) (message : string) : M unit :=
  let! lg := deref l in
  (if LogWarn <=? level lg then printLine l message "WARN" else ret tt) ;;;
  sendRiemann l message "WARN" [].

Definition Infoln (l : positive) (message : string) : M unit :=
  let! lg := deref l in
  (if LogInfo <=? level lg then printLine l message "INFO" else ret tt) ;;;
  sendRiemann l message "INFO" [].

Definition Debugln (l : positive) (message : string) : M unit :=
  let! lg := deref l in
  if LogDebug <=? level lg then printLine l message "DEBUG" else ret tt.

Definition Traceln (l : positive) (message : string) : M unit :=
  let! lg := deref l in
  if LogTrace <=? level lg then printLine l message "TRACE" else ret tt.

(** *** The twelve entry points, by severity and variant *)

Inductive Severity := Fatal | Error | Warn | Info | Debug | Trace.

Definition rank (s : Severity) : Z :=
  match s with
  | Fatal => LogFatal
  | Error => LogError
  | Warn => LogWarn
  | Info => LogInfo
  | Debug => LogDebug
  | Trace => LogTrace
  end.

(** A call of an entry point: the formatted variant with its operands, or
    the line variant. *)
Inductive Call :=
| Formatted (message : string) (other : list Operand)
| Line (message : string).

Definition emit (s : Severity) (c : Call) (l : positive) : M unit :=
  match c, s with
  | Formatted message other, Fatal => Fatalf l message other
  | Formatted message other, Error => Errorf l message other
  | Formatted message other, Warn => Warnf l message other
  | Formatted message other, Info => Infof l message other
  | Formatted message other, Debug => Debugf l message other
  | Formatted message other, Trace => Tracef l message other
  | Line message, Fatal => Fatalln l message
  | Line message, Error => Errorln l message
  | Line message, Warn => Warnln l message
  | Line message, Info => Infoln l message
  | Line message, Debug => Debugln l message
  | Line message, Trace => Traceln l message
  end.

(** ** What a call does, in closed form *)

Definition messageOf (c : Call) : string :=
  match c with Formatted m _ => m | Line m => m end.

Definition operandsOf (c : Call) : list Operand :=
  match c with Formatted _ o => o | Line _ => [] end.

(** The timestamp segment a call renders in world [w], and the clock
    afterwards. *)
Definition stamp (lg : Logger) (w : World) : string :=
  if AddTimeStamp (config lg) then timeNow (ticks w) +:+ " | " else "".

Definition ticked (lg : Logger) (w : World) : nat :=
  if AddTimeStamp (config lg) then S (ticks w) else ticks w.

(** The text of the console line of a call. *)
Definition consoleText (lg : Logger) (w : World) (s : Severity)
    (c : Call) : string :=
  match c with
  | Formatted m o =>
      Sprintf
        (render (stamp lg w) (intToLogLevel (rank s)) (Prefix (config lg)) m) o
  | Line m =>
      Sprintf
        (render (stamp lg w) (intToLogLevel (rank s)) (Prefix (config lg)) m
         +:+ String "010" "") []
  end.

(** The event of a call. *)
Definition eventOf (lg : Logger) (s : Severity) (c : Call)
    : RiemannEvent :=
  {| Service := Prefix (config lg);
     State := intToLogLevel (rank s);
     Description := Sprintf (messageOf c) (operandsOf c) |}.

(** The entry points that end in [sendRiemann]. *)
Definition forwards (s : Severity) : bool :=
  match s with
  | Fatal | Error | Warn | Info => true
  | Debug | Trace => false
  end.

(** The clients after a call on logger [lg]. *)
Definition clientsAfter (lg : Logger) (s : Severity) (c : Call)
    (w : World) : gmap positive (list RiemannEvent) :=
  match forwards s, riemannClient lg with
  | true, Some cl => <[cl := (sent w cl ++ [eventOf lg s c])%list]> (clients w)
  | _, _ => clients w
  end.

(** A run of calls on one logger, in order. *)
Fixpoint emitAll (calls : list (Severity * Call)) (l : positive)
    : M unit :=
  match calls with
  | [] => ret tt
  | (s, c) :: rest =>
      emit s c l ;;; emitAll rest l
  end.

(** *** A run of calls, in closed form *)

(** The text of the console line of a call made when the clock has been read
    [n] times. *)
Definition stampAt (lg : Logger) (n : nat) : string :=
  if AddTimeStamp (config lg) then timeNow n +:+ " | " else "".

Definition textAt (lg : Logger) (n : nat) (s : Severity) (c : Call) : string :=
  match c with
  | Formatted m o =>
      Sprintf
        (render (stampAt lg n) (intToLogLevel (rank s)) (Prefix (config lg)) m) o
  | Line m =>
      Sprintf
        (render (stampAt lg n) (intToLogLevel (rank s)) (Prefix (config lg)) m
         +:+ String "010" "") []
  end.

(** The texts a run of calls writes, in order, from clock reading [n] on:
    those of the calls that pass the threshold, each with the next reading
    if timestamps are on. *)
Fixpoint textsFrom (lg : Logger) (n : nat) (calls : list (Severity * Call))
    : list string :=
  match calls with
  | [] => []
  | (s, c) :: rest =>
      if rank s <=? level lg
      then textAt lg n s c
           :: textsFrom lg (if AddTimeStamp (config lg) then S n else n) rest
      else textsFrom lg n rest
  end.

(** The events a run of calls submits, in order. *)
Fixpoint eventsOf (lg : Logger) (calls : list (Severity * Call))
    : list RiemannEvent :=
  match calls with
  | [] => []
  | (s, c) :: rest =>
      if forwards s then eventOf lg s c :: eventsOf lg rest
      else eventsOf lg rest
  end.

(** * Properties *)

(** ** Strings *)

Lemma isASCIIByte_upperByte a :
  GoStrings.isASCIIByte (GoStrings.upperByte a) = GoStrings.isASCIIByte a.
Proof.
  destruct a as [b0 b1 b2 b3 b4 b5 b6 b7].
  destruct b0, b1, b2, b3, b4, b5, b6, b7; reflexivity.
Qed.

Lemma caseVariant_isASCII s : forall t,
  GoStrings.caseVariant s t -> GoStrings.isASCII s = GoStrings.isASCII t.
Proof.
  induction s as [| a s IH]; intros [| b t] H; simpl in H; try contradiction.
  - reflexivity.
  - destruct H as [Hab Hst]. simpl.
    rewrite <- (isASCIIByte_upperByte a), Hab, isASCIIByte_upperByte.
    now rewrite (IH t Hst).
Qed.

Lemma caseVariant_upperASCII s : forall t,
  GoStrings.caseVariant s t -> GoStrings.upperASCII s = GoStrings.upperASCII t.
Proof.
  induction s as [| a s IH]; intros [| b t] H; simpl in H; try contradiction.
  - reflexivity.
  - destruct H as [Hab Hst]. simpl. now rewrite Hab, (IH t Hst).
Qed.

Lemma upperASCII_caseVariant s : forall t,
  GoStrings.upperASCII s = GoStrings.upperASCII t -> GoStrings.caseVariant s t.
Proof.
  induction s as [| a s IH]; intros [| b t] H; simpl in *; try discriminate.
  - exact I.
  - injection H as Hab Hst. split; [exact Hab | exact (IH t Hst)].
Qed.

(** On ASCII strings, equal once upper-cased is equal up to the case of the
    letters. *)
Lemma equalFold_ascii s t :
  GoStrings.isASCII s = true -> GoStrings.isASCII t = true ->
  equalFold s t <-> GoStrings.caseVariant s t.
Proof.
  intros Hs Ht. unfold equalFold, GoStrings.ToUpper. rewrite Hs, Ht. split.
  - apply upperASCII_caseVariant.
  - apply caseVariant_upperASCII.
Qed.

Lemma levelNames_upper n :
  In n levelNames -> GoStrings.ToUpper unicodeUpper n = n.
Proof.
  unfold levelNames. simpl.
  intros H. repeat (destruct H as [<- | H]; [reflexivity |]). contradiction.
Qed.

Lemma logLevelToInt_unknown s :
  (forall n, In n levelNames -> ~ equalFold s n) -> logLevelToInt s = -1.
Proof.
  intros H.
  assert (Hn : forall n, In n levelNames ->
                         String.eqb (GoStrings.ToUpper unicodeUpper s) n = false).
  { intros n Hin. apply String.eqb_neq. intros E. apply (H n Hin).
    unfold equalFold. now rewrite (levelNames_upper n Hin). }
  unfold logLevelToInt.
  rewrite !Hn by (unfold levelNames; simpl; tauto).
  reflexivity.
Qed.

(** An ASCII string that is no spelling of a level name has rank [-1]. *)
Lemma logLevelToInt_unknown_ascii s :
  GoStrings.isASCII s = true ->
  (forall n, In n levelNames -> ~ GoStrings.caseVariant s n) ->
  logLevelToInt s = -1.
Proof.
  intros Hs H. apply logLevelToInt_unknown. intros n Hin E.
  apply (H n Hin). apply (equalFold_ascii s n Hs); [| exact E].
  unfold levelNames in Hin. simpl in Hin.
  repeat (destruct Hin as [<- | Hin]; [reflexivity |]). contradiction.
Qed.

Lemma append_String x (a b : string) :
  String x a +:+ b = String x (a +:+ b).
Proof. reflexivity. Qed.

Lemma append_assoc (a b c : string) :
  (a +:+ b) +:+ c = a +:+ (b +:+ c).
Proof.
  induction a as [| x a IH]; [reflexivity |].
  rewrite !append_String. now rewrite IH.
Qed.

Lemma percentFree_app a b :
  GoFmt.percentFree (a +:+ b) = GoFmt.percentFree a && GoFmt.percentFree b.
Proof.
  induction a as [| x a IH]; [reflexivity |].
  rewrite append_String. simpl. rewrite IH. now rewrite andb_assoc.
Qed.

Lemma noOperands_percentFree s :
  GoFmt.percentFree s = true -> GoFmt.noOperands s = Some s.
Proof.
  induction s as [| c s IH]; simpl; [reflexivity |].
  intros H. apply andb_prop in H. destruct H as [Hc Hs].
  destruct (Ascii.eqb c "%"); [discriminate |].
  now rewrite (IH Hs).
Qed.

Lemma Sprintf_percentFree s :
  GoFmt.percentFree s = true -> Sprintf s [] = s.
Proof.
  intros H. unfold Sprintf, GoFmt.Sprintf.
  now rewrite (noOperands_percentFree s H).
Qed.

(** ** The store *)

Lemma deref_Some w l lg :
  loggers w !! l = Some lg -> deref l w = Some (lg, w).
Proof. intros H. unfold deref. now rewrite H. Qed.

Lemma printf_Some w l lg sid message lvl other :
  loggers w !! l = Some lg ->
  stream lg = Some sid ->
  printf l message lvl other w =
  Some (tt, {| loggers := loggers w;
               sinks := <[sid := (written w sid ++
                          [Sprintf (render (stamp lg w) lvl (Prefix (config lg)) message)
                                   other])%list]> (sinks w);
               clients := clients w;
               ticks := ticked lg w |}).
Proof.
  intros Hl Hs.
  unfold printf, bind, timestampStr, stamp, ticked.
  rewrite (deref_Some _ _ _ Hl), Hs.
  destruct (AddTimeStamp (config lg)); reflexivity.
Qed.

Lemma printLine_Some w l lg sid message lvl :
  loggers w !! l = Some lg ->
  stream lg = Some sid ->
  printLine l message lvl w =
  Some (tt, {| loggers := loggers w;
               sinks := <[sid := (written w sid ++
                          [Sprintf (render (stamp lg w) lvl (Prefix (config lg)) message
                                    +:+ String "010" "") []])%list]> (sinks w);
               clients := clients w;
               ticks := ticked lg w |}).
Proof.
  intros Hl Hs.
  unfold printLine, bind, timestampStr, stamp, ticked.
  rewrite (deref_Some _ _ _ Hl), Hs.
  destruct (AddTimeStamp (config lg)); reflexivity.
Qed.

Lemma sendRiemann_Some w l lg message lvl other :
  loggers w !! l = Some lg ->
  sendRiemann l message lvl other w =
  Some (tt, {| loggers := loggers w;
               sinks := sinks w;
               clients :=
                 match riemannClient lg with
                 | Some cl =>
                     <[cl := (sent w cl ++
                              [{| Service := Prefix (config lg);
                                  State := lvl;
                                  Description := Sprintf message other |}])%list]>
                       (clients w)
                 | None => clients w
                 end;
               ticks := ticks w |}).
Proof.
  intros Hl. unfold sendRiemann, bind.
  rewrite (deref_Some _ _ _ Hl).
  destruct (riemannClient lg); [reflexivity |].
  unfold ret. destruct w; reflexivity.
Qed.

Ltac enter_call Hl :=
  unfold emit, Fatalf, Errorf, Warnf, Infof, Debugf, Tracef,
    Fatalln, Errorln, Warnln, Infoln, Debugln, Traceln, bind;
  rewrite (deref_Some _ _ _ Hl).

(** A call whose severity passes the threshold: one [Write] on the logger's
    sink, then the event, if the entry point forwards. *)
Lemma emit_pass s c w l lg sid :
  loggers w !! l = Some lg ->
  stream lg = Some sid ->
  rank s <= level lg ->
  emit s c l w =
  Some (tt, {| loggers := loggers w;
               sinks := <[sid := (written w sid ++ [consoleText lg w s c])%list]>
                          (sinks w);
               clients := clientsAfter lg s c w;
               ticks := ticked lg w |}).
Proof.
  intros Hl Hs Hr.
  destruct s, c; enter_call Hl;
    (match goal with
     | |- context [?a <=? level lg] =>
         replace (a <=? level lg) with true by (symmetry; apply Z.leb_le; exact Hr)
     end);
    first [ rewrite (printf_Some _ _ _ _ _ _ _ Hl Hs)
          | rewrite (printLine_Some _ _ _ _ _ _ Hl Hs) ];
    try (erewrite sendRiemann_Some by (simpl; exact Hl));
    unfold clientsAfter, forwards; simpl;
    destruct (riemannClient lg); reflexivity.
Qed.

(** A call whose severity is above the threshold: no [Write], no reading of
    the clock; the event is sent all the same. *)
Lemma emit_block s c w l lg :
  loggers w !! l = Some lg ->
  level lg < rank s ->
  emit s c l w =
  Some (tt, {| loggers := loggers w;
               sinks := sinks w;
               clients := clientsAfter lg s c w;
               ticks := ticks w |}).
Proof.
  intros Hl Hr.
  destruct s, c; enter_call Hl;
    (match goal with
     | |- context [?a <=? level lg] =>
         replace (a <=? level lg) with false by (symmetry; apply Z.leb_gt; exact Hr)
     end);
    unfold ret;
    try (erewrite sendRiemann_Some by (simpl; exact Hl));
    unfold clientsAfter, forwards; simpl;
    destruct (riemannClient lg); destruct w; reflexivity.
Qed.

(** C1. For every severity and both variants, on a logger with threshold
    rank [level lg]: the call returns, and if [rank s <= level lg] the
    logger's sink has received exactly one more [Write], carrying the rendered
    line, every other sink being as before; if [rank s > level lg] no sink
    has received anything. *)
Theorem console_gate (s : Severity) (c : Call) (w : World)
    (l : positive) (lg : Logger) (sid : positive) :
  loggers w !! l = Some lg ->
  stream lg = Some sid ->
  exists w', emit s c l w = Some (tt, w') /\
    if rank s <=? level lg
    then written w' sid = (written w sid ++ [consoleText lg w s c])%list /\
         forall sid', sid' <> sid -> written w' sid' = written w sid'
    else sinks w' = sinks w.
Proof.
  intros Hl Hs.
  destruct (Z.leb_spec (rank s) (level lg)) as [Hr | Hr].
  - eexists. split; [apply (emit_pass _ _ _ _ _ _ Hl Hs Hr) |].
    unfold written; cbn [sinks]. split.
    + now rewrite lookup_insert_eq.
    + intros sid' Hne. now rewrite lookup_insert_ne.
  - eexists. split; [apply (emit_block _ _ _ _ _ Hl Hr) |]. reflexivity.
Qed.

(** C2. On a logger with a client attached, a call at Fatal, Error, Warn or
    Info submits exactly one event to that client, with the prefix as
    service, the level name as state and the formatted message as
    description, whatever the threshold; a call at Debug or Trace leaves
    every client as it was. *)
Theorem forwarding_gate (s : Severity) (c : Call) (w : World)
    (l : positive) (lg : Logger) (sid cl : positive) :
  loggers w !! l = Some lg ->
  stream lg = Some sid ->
  riemannClient lg = Some cl ->
  exists w', emit s c l w = Some (tt, w') /\
    match s with
    | Debug | Trace => clients w' = clients w
    | _ =>
        sent w' cl =
          (sent w cl ++
           [{| Service := Prefix (config lg);
               State := intToLogLevel (rank s);
               Description := Sprintf (messageOf c) (operandsOf c) |}])%list /\
        forall cl', cl' <> cl -> sent w' cl' = sent w cl'
    end.
Proof.
  intros Hl Hs Hc.
  assert (Hw : exists w', emit s c l w = Some (tt, w') /\
                          clients w' = clientsAfter lg s c w).
  { destruct (Z.le_gt_cases (rank s) (level lg)) as [Hr | Hr].
    - eexists. split; [apply (emit_pass _ _ _ _ _ _ Hl Hs Hr) | reflexivity].
    - eexists. split; [apply (emit_block _ _ _ _ _ Hl Hr) | reflexivity]. }
  destruct Hw as (w' & He & Hcl). exists w'. split; [exact He |].
  unfold clientsAfter in Hcl. rewrite Hc in Hcl.
  destruct s; cbn [forwards] in Hcl; try exact Hcl;
    (split; [| intros cl' Hne]; unfold sent at 1; rewrite Hcl;
     [now rewrite lookup_insert_eq | now rewrite lookup_insert_ne]).
Qed.

(** The line variant on text without [%]: with timestamps off, a call that
    passes the threshold writes [LEVEL | prefix | message] and a newline. *)
Lemma consoleText_percentFree (s : Severity) (message : string) (w : World)
    (lg : Logger) :
  AddTimeStamp (config lg) = false ->
  GoFmt.percentFree (Prefix (config lg)) = true ->
  GoFmt.percentFree message = true ->
  consoleText lg w s (Line message) =
    intToLogLevel (rank s) +:+ " | " +:+ Prefix (config lg) +:+ " | "
    +:+ message +:+ String "010" "".
Proof.
  intros Ht Hp Hm. unfold consoleText, stamp, render. rewrite Ht.
  rewrite Sprintf_percentFree.
  - change ("" +:+ ?x) with x. now rewrite !append_assoc.
  - rewrite !percentFree_app, Hp, Hm. destruct s; reflexivity.
Qed.

Lemma line_percentFree (s : Severity) (message : string) (w : World)
    (l : positive) (lg : Logger) (sid : positive) :
  loggers w !! l = Some lg ->
  stream lg = Some sid ->
  AddTimeStamp (config lg) = false ->
  GoFmt.percentFree (Prefix (config lg)) = true ->
  GoFmt.percentFree message = true ->
  rank s <= level lg ->
  exists w', emit s (Line message) l w = Some (tt, w') /\
    written w' sid =
      (written w sid ++
       [intToLogLevel (rank s) +:+ " | " +:+ Prefix (config lg) +:+ " | "
        +:+ message +:+ String "010" ""])%list.
Proof.
  intros Hl Hs Ht Hp Hm Hr.
  eexists. split; [apply (emit_pass _ _ _ _ _ _ Hl Hs Hr) |].
  unfold written; cbn [sinks]. rewrite lookup_insert_eq.
  now rewrite (consoleText_percentFree s message w lg Ht Hp Hm).
Qed.

(** C3. [Warnln] on a message with a percent sign: the logger of
    configuration (svc, WARN, no timestamp) is given ["disk usage 100%"], and
    the sink receives the message after a pass through the formatter, the
    [%] and the newline read as a directive with no operand, not the text
    ["WARN | svc | disk usage 100%"] and a newline. *)
Theorem Warnln_percent_reformatted :
  let cfg := {| Prefix := "svc"; LogLevel := "WARN"; AddTimeStamp := false |} in
  exists l w1 w2,
    NewLogger (Some 1%positive) cfg emptyWorld = Some (l, w1) /\
    Warnln l "disk usage 100%" w1 = Some (tt, w2) /\
    written w2 1 =
      ["WARN | svc | disk usage 100%!" +:+ String "010" "(MISSING)"] /\
    written w2 1 <> ["WARN | svc | disk usage 100%" +:+ String "010" ""].
Proof.
  intros cfg. do 3 eexists.
  split; [reflexivity |]. split; [reflexivity |]. split; [reflexivity |].
  discriminate.
Qed.

(** The same on a message with a verb in it, and on a doubled percent
    sign. *)
Lemma Warnln_verb_reformatted :
  let cfg := {| Prefix := "svc"; LogLevel := "WARN"; AddTimeStamp := false |} in
  exists l w1 w2 w3,
    NewLogger (Some 1%positive) cfg emptyWorld = Some (l, w1) /\
    Warnln l "hi%d" w1 = Some (tt, w2) /\
    Warnln l "100%% sure" w2 = Some (tt, w3) /\
    written w3 1 =
      ["WARN | svc | hi%!d(MISSING)" +:+ String "010" "";
       "WARN | svc | 100% sure" +:+ String "010" ""].
Proof.
  intros cfg. do 4 eexists. repeat split; reflexivity.
Qed.

(** The spec's end-to-end example, which has no [%] in it. *)
Lemma Warnln_disk_low :
  let cfg := {| Prefix := "svc"; LogLevel := "WARN"; AddTimeStamp := false |} in
  exists l w1 w2 w3,
    NewLogger (Some 1%positive) cfg emptyWorld = Some (l, w1) /\
    Warnln l "disk low" w1 = Some (tt, w2) /\
    written w2 1 = ["WARN | svc | disk low" +:+ String "010" ""] /\
    Infoln l "started" w2 = Some (tt, w3) /\
    written w3 1 = written w2 1.
Proof.
  intros cfg. do 4 eexists. repeat split; reflexivity.
Qed.

(** ** Names and ranks *)

(** C7. On the eight defined ranks, the name of a rank resolves back to the
    rank. *)
Theorem rank_name_roundtrip (r : Z) :
  0 <= r <= 7 -> logLevelToInt (intToLogLevel r) = r.
Proof.
  intros Hr.
  assert (H : r = 0 \/ r = 1 \/ r = 2 \/ r = 3 \/ r = 4 \/ r = 5 \/ r = 6 \/ r = 7)
    by lia.
  repeat (destruct H as [-> | H]; [reflexivity |]). subst r. reflexivity.
Qed.

(** C8, as amended. On ASCII strings the conversion ignores the case of the
    letters: an ASCII string and a string that differs from it only in the
    case of its letters resolve to the same rank.  Unicode's case pairs are
    not honoured, as U+0130 shows at the end of the file. *)
Theorem logLevelToInt_ascii_case_insensitive (s t : string) :
  GoStrings.isASCII s = true ->
  GoStrings.caseVariant s t ->
  logLevelToInt s = logLevelToInt t.
Proof.
  intros Hs Hv. unfold logLevelToInt, GoStrings.ToUpper.
  rewrite <- (caseVariant_isASCII s t Hv), Hs.
  now rewrite (caseVariant_upperASCII s t Hv).
Qed.

(** The three spellings the spec names. *)
Lemma logLevelToInt_info :
  logLevelToInt "info" = LogInfo /\
  logLevelToInt "INFO" = LogInfo /\
  logLevelToInt "Info" = LogInfo.
Proof. repeat split; reflexivity. Qed.

(** C9. [intToLogLevel] returns on every integer: the name of the rank on
    the eight defined ranks, and ["ALL"] on every other integer. *)
Theorem intToLogLevel_total :
  intToLogLevel LogOff = "OFF" /\
  intToLogLevel LogFatal = "FATAL" /\
  intToLogLevel LogError = "ERROR" /\
  intToLogLevel LogWarn = "WARN" /\
  intToLogLevel LogInfo = "INFO" /\
  intToLogLevel LogDebug = "DEBUG" /\
  intToLogLevel LogTrace = "TRACE" /\
  intToLogLevel LogAll = "ALL" /\
  forall r : Z, r < 0 \/ 7 < r -> intToLogLevel r = "ALL".
Proof.
  repeat (split; [reflexivity |]).
  intros r Hr. unfold intToLogLevel, LogOff, LogFatal, LogError, LogWarn,
    LogInfo, LogDebug, LogTrace, LogAll.
  repeat (match goal with
          | |- context [?a =? ?b] =>
              destruct (Z.eqb_spec a b) as [? | ?]; [lia |]
          end).
  reflexivity.
Qed.

(** ** A logger of unknown level *)

Lemma NewLogger_Some (stream : option positive) (cfg : LoggerConfig)
    (w : World) :
  let l := fresh (dom (loggers w)) in
  let lg := {| stream := stream; config := cfg;
               level := logLevelToInt (LogLevel cfg);
               riemannClient := None |} in
  NewLogger stream cfg w =
  Some (l, {| loggers := <[l := lg]> (loggers w);
              sinks := sinks w;
              clients := clients w;
              ticks := ticks w |}).
Proof. reflexivity. Qed.

(** Below every severity, a logger writes nothing, however many calls. *)
Lemma emitAll_silent (calls : list (Severity * Call)) (l : positive)
    (lg : Logger) :
  level lg < LogFatal ->
  forall w, loggers w !! l = Some lg ->
  exists w', emitAll calls l w = Some (tt, w') /\
             loggers w' = loggers w /\ sinks w' = sinks w.
Proof.
  intros Hlv. induction calls as [| [s c] calls IH]; intros w Hl.
  - exists w. repeat split.
  - assert (Hr : level lg < rank s) by (destruct s; unfold rank, LogFatal,
      LogError, LogWarn, LogInfo, LogDebug, LogTrace in *; lia).
    cbn [emitAll]. unfold bind at 1. rewrite (emit_block _ _ _ _ _ Hl Hr).
    destruct (IH {| loggers := loggers w; sinks := sinks w;
                    clients := clientsAfter lg s c w; ticks := ticks w |} Hl)
      as (w' & He & Hlg & Hsk).
    exists w'. split; [exact He |]. split; [exact Hlg | exact Hsk].
Qed.

(** C4. A logger constructed with a level string that is not, once
    upper-cased, one of the eight names: every run of calls on it, at any
    severities and in either variant, returns and leaves every sink as it
    was. *)
Theorem unknown_level_silent (stream : option positive) (cfg : LoggerConfig)
    (w : World) (calls : list (Severity * Call)) :
  (forall n, In n levelNames -> ~ equalFold (LogLevel cfg) n) ->
  exists l w1 w2,
    NewLogger stream cfg w = Some (l, w1) /\
    emitAll calls l w1 = Some (tt, w2) /\
    sinks w2 = sinks w.
Proof.
  intros Hu. pose proof (logLevelToInt_unknown _ Hu) as Hlv.
  set (l := fresh (dom (loggers w))).
  set (lg := {| stream := stream; config := cfg;
                level := logLevelToInt (LogLevel cfg);
                riemannClient := None |}).
  set (w1 := {| loggers := <[l := lg]> (loggers w); sinks := sinks w;
                clients := clients w; ticks := ticks w |}).
  assert (Hl : loggers w1 !! l = Some lg) by apply lookup_insert_eq.
  assert (Hlt : level lg < LogFatal)
    by (cbn [lg level]; rewrite Hlv; unfold LogFatal; lia).
  destruct (emitAll_silent calls l lg Hlt w1 Hl) as (w2 & He & _ & Hsk).
  exists l, w1, w2. split; [apply NewLogger_Some |].
  split; [exact He | exact Hsk].
Qed.

(** ** Derivation and registration *)

Lemma emit_Some (s : Severity) (c : Call) (w : World) (l : positive)
    (lg : Logger) :
  loggers w !! l = Some lg ->
  (rank s <= level lg -> is_Some (stream lg)) ->
  exists w', emit s c l w = Some (tt, w') /\
    loggers w' = loggers w /\
    clients w' = clientsAfter lg s c w /\
    (level lg < rank s -> sinks w' = sinks w).
Proof.
  intros Hl Hs.
  destruct (Z.le_gt_cases (rank s) (level lg)) as [Hr | Hr].
  - destruct (Hs Hr) as [sid Hsid]. eexists.
    split; [apply (emit_pass _ _ _ _ _ _ Hl Hsid Hr) |].
    repeat split. cbn [sinks]. lia.
  - eexists. split; [apply (emit_block _ _ _ _ _ Hl Hr) |]. repeat split.
Qed.

Lemma sent_clientsAfter (s : Severity) (c : Call) (w w' : World)
    (lg : Logger) (cl : positive) :
  clients w' = clientsAfter lg s c w ->
  riemannClient lg = Some cl ->
  In s [Fatal; Error; Warn; Info] ->
  sent w' cl = (sent w cl ++ [eventOf lg s c])%list /\
  forall cl', cl' <> cl -> sent w' cl' = sent w cl'.
Proof.
  intros Hc Hcl Hin. unfold clientsAfter in Hc. rewrite Hcl in Hc.
  assert (Hf : forwards s = true)
    by (simpl in Hin; destruct Hin as [<- | [<- | [<- | [<- | []]]]];
        reflexivity).
  rewrite Hf in Hc. unfold sent at 1 3. rewrite Hc. split.
  - now rewrite lookup_insert_eq.
  - intros cl' Hne. now rewrite lookup_insert_ne.
Qed.

Lemma NewModule_Some (w : World) (parent : positive) (lg : Logger)
    (suffix : string) :
  loggers w !! parent = Some lg ->
  let child := fresh (dom (loggers w)) in
  NewModule parent suffix w =
  Some (child,
        {| loggers :=
             <[child := {| stream := stream lg;
                           config := {| Prefix := Prefix (config lg) +:+ suffix;
                                        LogLevel := LogLevel (config lg);
                                        AddTimeStamp := AddTimeStamp (config lg) |};
                           level := level lg;
                           riemannClient := riemannClient lg |}]> (loggers w);
           sinks := sinks w;
           clients := clients w;
           ticks := ticks w |}).
Proof.
  intros Hl child. unfold NewModule, bind. now rewrite (deref_Some _ _ _ Hl).
Qed.

Lemma UseRiemann_Some (w : World) (l : positive) (lg : Logger)
    (c : positive) :
  loggers w !! l = Some lg ->
  UseRiemann l (Some c) w =
  Some (None,
        {| loggers := <[l := {| stream := stream lg;
                                config := config lg;
                                level := level lg;
                                riemannClient := Some c |}]> (loggers w);
           sinks := sinks w;
           clients := clients w;
           ticks := ticks w |}).
Proof.
  intros Hl. unfold UseRiemann, bind, assign.
  rewrite (deref_Some _ _ _ Hl). now rewrite Hl.
Qed.

Lemma fresh_loggers (w : World) (l : positive) (lg : Logger) :
  loggers w !! l = Some lg -> fresh (dom (loggers w)) <> l.
Proof.
  intros Hl E. apply (is_fresh (dom (loggers w))).
  rewrite E. apply elem_of_dom. now exists lg.
Qed.

(** C5. [NewModule] returns a new logger whose prefix is the parent's
    followed by the suffix, with the parent's sink, level and client; the
    parent is as before.  Registering another client on the parent afterwards
    changes the parent only: the derived logger keeps the client of the time
    of derivation, and its events go there and not to the new client. *)
Theorem NewModule_snapshot (w : World) (parent : positive) (lg : Logger)
    (suffix : string) (c2 : positive) :
  loggers w !! parent = Some lg ->
  let lgChild := {| stream := stream lg;
                    config := {| Prefix := Prefix (config lg) +:+ suffix;
                                 LogLevel := LogLevel (config lg);
                                 AddTimeStamp := AddTimeStamp (config lg) |};
                    level := level lg;
                    riemannClient := riemannClient lg |} in
  exists child w1 w2,
    NewModule parent suffix w = Some (child, w1) /\
    child <> parent /\
    loggers w1 !! parent = Some lg /\
    loggers w1 !! child = Some lgChild /\
    UseRiemann parent (Some c2) w1 = Some (None, w2) /\
    loggers w2 !! parent = Some {| stream := stream lg;
                                   config := config lg;
                                   level := level lg;
                                   riemannClient := Some c2 |} /\
    loggers w2 !! child = Some lgChild /\
    forall (s : Severity) (c : Call) (sid c1 : positive),
      stream lg = Some sid ->
      riemannClient lg = Some c1 ->
      In s [Fatal; Error; Warn; Info] ->
      exists w3, emit s c child w2 = Some (tt, w3) /\
        sent w3 c1 = (sent w2 c1 ++ [eventOf lgChild s c])%list /\
        (c2 <> c1 -> sent w3 c2 = sent w2 c2).
Proof.
  intros Hl lgChild.
  pose proof (fresh_loggers w parent lg Hl) as Hne.
  set (child := fresh (dom (loggers w))) in *.
  set (w1 := {| loggers := <[child := lgChild]> (loggers w); sinks := sinks w;
                clients := clients w; ticks := ticks w |}).
  assert (Hp1 : loggers w1 !! parent = Some lg)
    by (cbn [w1 loggers]; now rewrite lookup_insert_ne).
  assert (Hc1 : loggers w1 !! child = Some lgChild)
    by (cbn [w1 loggers]; now rewrite lookup_insert_eq).
  set (lg2 := {| stream := stream lg; config := config lg; level := level lg;
                 riemannClient := Some c2 |}).
  set (w2 := {| loggers := <[parent := lg2]> (loggers w1); sinks := sinks w1;
                clients := clients w1; ticks := ticks w1 |}).
  assert (Hc2 : loggers w2 !! child = Some lgChild)
    by (cbn [w2 loggers]; rewrite lookup_insert_ne by congruence; exact Hc1).
  exists child, w1, w2.
  split; [exact (NewModule_Some w parent lg suffix Hl) |].
  split; [exact Hne |].
  split; [exact Hp1 |].
  split; [exact Hc1 |].
  split; [exact (UseRiemann_Some w1 parent lg c2 Hp1) |].
  split; [cbn [w2 loggers]; now rewrite lookup_insert_eq |].
  split; [exact Hc2 |].
  intros s c sid c1 Hsid Hcl Hin.
  destruct (emit_Some s c w2 child lgChild Hc2) as (w3 & He & _ & Hcs & _).
  { intros _. exists sid. exact Hsid. }
  destruct (sent_clientsAfter s c w2 w3 lgChild c1 Hcs Hcl Hin) as [Hs1 Hs2].
  exists w3. split; [exact He |]. split; [exact Hs1 |].
  intros Hd. now apply Hs2.
Qed.

(** C6. [UseRiemann] with a nil client returns [ErrClientNil] and changes
    nothing: a client attached before is attached still and receives the
    event of the next forwarding call.  With a client that is not nil it
    returns no error and the logger refers to that client, everything else
    being as before. *)
Theorem UseRiemann_nil_client (w : World) (l : positive) :
  UseRiemann l None w = Some (Some ErrClientNil, w) /\
  (forall (lg : Logger) (sid cl : positive) (s : Severity) (c : Call),
     loggers w !! l = Some lg ->
     stream lg = Some sid ->
     riemannClient lg = Some cl ->
     In s [Fatal; Error; Warn; Info] ->
     exists w1 w2,
       UseRiemann l None w = Some (Some ErrClientNil, w1) /\
       loggers w1 !! l = Some lg /\
       emit s c l w1 = Some (tt, w2) /\
       sent w2 cl = (sent w1 cl ++ [eventOf lg s c])%list) /\
  (forall (lg : Logger) (cl : positive),
     loggers w !! l = Some lg ->
     exists w1,
       UseRiemann l (Some cl) w = Some (None, w1) /\
       loggers w1 = <[l := {| stream := stream lg;
                              config := config lg;
                              level := level lg;
                              riemannClient := Some cl |}]> (loggers w) /\
       sinks w1 = sinks w /\
       clients w1 = clients w).
Proof.
  split; [reflexivity |]. split.
  - intros lg sid cl s c Hl Hsid Hcl Hin.
    destruct (emit_Some s c w l lg Hl) as (w2 & He & _ & Hcs & _).
    { intros _. exists sid. exact Hsid. }
    exists w, w2. split; [reflexivity |]. split; [exact Hl |].
    split; [exact He |].
    exact (proj1 (sent_clientsAfter s c w w2 lg cl Hcs Hcl Hin)).
  - intros lg cl Hl. eexists.
    split; [exact (UseRiemann_Some w l lg cl Hl) |]. repeat split.
Qed.

(** C10. A logger constructed with a level string that is not, once
    upper-cased, one of the eight names, and given a client: a call at Fatal,
    Error, Warn or Info submits its event to the client, and no sink has
    received anything. *)
Theorem unknown_level_forwards (stream : option positive)
    (cfg : LoggerConfig) (w : World) (cl : positive) (s : Severity)
    (c : Call) :
  (forall n, In n levelNames -> ~ equalFold (LogLevel cfg) n) ->
  In s [Fatal; Error; Warn; Info] ->
  exists l w1 w2 w3,
    NewLogger stream cfg w = Some (l, w1) /\
    UseRiemann l (Some cl) w1 = Some (None, w2) /\
    emit s c l w2 = Some (tt, w3) /\
    sinks w3 = sinks w /\
    sent w3 cl =
      (sent w cl ++
       [{| Service := Prefix cfg;
           State := intToLogLevel (rank s);
           Description := Sprintf (messageOf c) (operandsOf c) |}])%list.
Proof.
  intros Hu Hin. pose proof (logLevelToInt_unknown _ Hu) as Hlv.
  set (l := fresh (dom (loggers w))).
  set (lg := {| stream := stream; config := cfg;
                level := logLevelToInt (LogLevel cfg);
                riemannClient := None |}).
  set (w1 := {| loggers := <[l := lg]> (loggers w); sinks := sinks w;
                clients := clients w; ticks := ticks w |}).
  assert (Hl : loggers w1 !! l = Some lg) by apply lookup_insert_eq.
  set (lg2 := {| stream := stream; config := cfg;
                 level := logLevelToInt (LogLevel cfg);
                 riemannClient := Some cl |}).
  set (w2 := {| loggers := <[l := lg2]> (loggers w1); sinks := sinks w1;
                clients := clients w1; ticks := ticks w1 |}).
  assert (Hl2 : loggers w2 !! l = Some lg2) by apply lookup_insert_eq.
  assert (Hr : level lg2 < rank s).
  { cbn [lg2 level]. rewrite Hlv.
    destruct s; unfold rank, LogFatal, LogError, LogWarn, LogInfo, LogDebug,
      LogTrace; lia. }
  destruct (emit_Some s c w2 l lg2 Hl2) as (w3 & He & _ & Hcs & Hsk).
  { intros Hle. lia. }
  exists l, w1, w2, w3.
  split; [apply NewLogger_Some |].
  split; [exact (UseRiemann_Some w1 l lg cl Hl) |].
  split; [exact He |].
  split; [exact (Hsk Hr) |].
  exact (proj1 (sent_clientsAfter s c w2 w3 lg2 cl Hcs eq_refl Hin)).
Qed.

(** * Further properties *)

(** ** Runs of calls *)

Lemma consoleText_textAt (lg : Logger) (w : World) (s : Severity) (c : Call) :
  consoleText lg w s c = textAt lg (ticks w) s c.
Proof. reflexivity. Qed.

Lemma ticked_pass (lg : Logger) (w : World) :
  ticked lg w = if AddTimeStamp (config lg) then S (ticks w) else ticks w.
Proof. reflexivity. Qed.

(** What a run of calls leaves behind, all at once. *)
Lemma emitAll_run (l : positive) (lg : Logger) (sid : positive)
    (calls : list (Severity * Call)) :
  stream lg = Some sid ->
  forall w, loggers w !! l = Some lg ->
  exists w', emitAll calls l w = Some (tt, w') /\
    loggers w' = loggers w /\
    written w' sid = (written w sid ++ textsFrom lg (ticks w) calls)%list /\
    (forall sid', sid' <> sid -> written w' sid' = written w sid') /\
    ticks w' = (if AddTimeStamp (config lg)
                then ticks w + List.length (textsFrom lg (ticks w) calls)
                else ticks w)%nat /\
    match riemannClient lg with
    | Some cl =>
        sent w' cl = (sent w cl ++ eventsOf lg calls)%list /\
        forall cl', cl' <> cl -> sent w' cl' = sent w cl'
    | None => clients w' = clients w
    end.
Proof.
  intros Hs. induction calls as [| [s c] calls IH]; intros w Hl.
  - exists w. split; [reflexivity |]. split; [reflexivity |].
    split; [cbn [textsFrom]; now rewrite app_nil_r |].
    split; [reflexivity |].
    split; [cbn [textsFrom List.length]; destruct (AddTimeStamp (config lg)); lia |].
    destruct (riemannClient lg); [| reflexivity].
    split; [cbn [eventsOf]; now rewrite app_nil_r | reflexivity].
  - cbn [emitAll textsFrom eventsOf]. unfold bind at 1.
    destruct (Z.leb_spec (rank s) (level lg)) as [Hr | Hr].
    + rewrite (emit_pass _ _ _ _ _ _ Hl Hs Hr).
      match goal with |- context [emitAll calls l ?w1] =>
        destruct (IH w1 Hl) as (w' & He & Hlg & Hwr & Hot & Htk & Hcl) end.
      exists w'. split; [exact He |]. split; [exact Hlg |].
      cbn [ticks] in Hwr, Htk. rewrite ticked_pass in Hwr, Htk.
      split.
      { rewrite Hwr. unfold written at 1. cbn [sinks].
        rewrite lookup_insert_eq. change (default [] (Some ?x)) with x.
        rewrite consoleText_textAt. now rewrite <- app_assoc. }
      split.
      { intros sid' Hne. rewrite (Hot sid' Hne). unfold written. cbn [sinks].
        now rewrite lookup_insert_ne. }
      split.
      { rewrite Htk. cbn [List.length]. destruct (AddTimeStamp (config lg)); lia. }
      unfold clientsAfter in Hcl. destruct (riemannClient lg) as [cl |].
      * destruct Hcl as [Hc1 Hc2]. destruct (forwards s).
        -- split.
           ++ rewrite Hc1. unfold sent at 1. cbn [clients].
              rewrite lookup_insert_eq. change (default [] (Some ?x)) with x. now rewrite <- app_assoc.
           ++ intros cl' Hne. rewrite (Hc2 cl' Hne). unfold sent. cbn [clients].
              now rewrite lookup_insert_ne.
        -- split; [exact Hc1 | exact Hc2].
      * destruct (forwards s); exact Hcl.
    + rewrite (emit_block _ _ _ _ _ Hl Hr).
      match goal with |- context [emitAll calls l ?w1] =>
        destruct (IH w1 Hl) as (w' & He & Hlg & Hwr & Hot & Htk & Hcl) end.
      exists w'. split; [exact He |]. split; [exact Hlg |].
      cbn [ticks] in Hwr, Htk.
      split; [exact Hwr |]. split; [exact Hot |]. split; [exact Htk |].
      unfold clientsAfter in Hcl. destruct (riemannClient lg) as [cl |].
      * destruct Hcl as [Hc1 Hc2]. destruct (forwards s).
        -- split.
           ++ rewrite Hc1. unfold sent at 1. cbn [clients].
              rewrite lookup_insert_eq. change (default [] (Some ?x)) with x. now rewrite <- app_assoc.
           ++ intros cl' Hne. rewrite (Hc2 cl' Hne). unfold sent. cbn [clients].
              now rewrite lookup_insert_ne.
        -- split; [exact Hc1 | exact Hc2].
      * destruct (forwards s); exact Hcl.
Qed.

(** X1. A run of calls on a logger appends to the logger's sink the texts of
    the calls that pass the threshold, one [Write] each and in the order of
    the calls; no other sink receives anything. *)
Theorem run_written_in_order (calls : list (Severity * Call)) (w : World)
    (l : positive) (lg : Logger) (sid : positive) :
  loggers w !! l = Some lg ->
  stream lg = Some sid ->
  exists w', emitAll calls l w = Some (tt, w') /\
    written w' sid = (written w sid ++ textsFrom lg (ticks w) calls)%list /\
    forall sid', sid' <> sid -> written w' sid' = written w sid'.
Proof.
  intros Hl Hs.
  destruct (emitAll_run l lg sid calls Hs w Hl) as (w' & He & _ & Hwr & Hot & _).
  exists w'. split; [exact He |]. split; [exact Hwr | exact Hot].
Qed.

(** X2. The clock is read once for each line written when timestamps are on,
    and never when they are off; a call that is filtered out reads no
    clock. *)
Theorem run_clock_reads (calls : list (Severity * Call)) (w : World)
    (l : positive) (lg : Logger) (sid : positive) :
  loggers w !! l = Some lg ->
  stream lg = Some sid ->
  exists w', emitAll calls l w = Some (tt, w') /\
    if AddTimeStamp (config lg)
    then (ticks w' + List.length (written w sid)
          = ticks w + List.length (written w' sid))%nat
    else ticks w' = ticks w.
Proof.
  intros Hl Hs.
  destruct (emitAll_run l lg sid calls Hs w Hl)
    as (w' & He & _ & Hwr & _ & Htk & _).
  exists w'. split; [exact He |].
  rewrite Hwr, Htk. destruct (AddTimeStamp (config lg)); [| reflexivity].
  rewrite length_app. lia.
Qed.

(** X3. A run of calls on a logger with a client submits to that client the
    events of the calls at Fatal, Error, Warn and Info, in the order of the
    calls and whatever the threshold; no other client receives anything. *)
Theorem run_events_in_order (calls : list (Severity * Call)) (w : World)
    (l : positive) (lg : Logger) (sid cl : positive) :
  loggers w !! l = Some lg ->
  stream lg = Some sid ->
  riemannClient lg = Some cl ->
  exists w', emitAll calls l w = Some (tt, w') /\
    sent w' cl = (sent w cl ++ eventsOf lg calls)%list /\
    forall cl', cl' <> cl -> sent w' cl' = sent w cl'.
Proof.
  intros Hl Hs Hc.
  destruct (emitAll_run l lg sid calls Hs w Hl) as (w' & He & _ & _ & _ & _ & Hcl).
  rewrite Hc in Hcl. exists w'. split; [exact He | exact Hcl].
Qed.

(** X4. A logger on which no client was registered submits nothing: after any
    run of calls every client is as before. *)
Theorem run_without_client (calls : list (Severity * Call)) (w : World)
    (l : positive) (lg : Logger) (sid : positive) :
  loggers w !! l = Some lg ->
  stream lg = Some sid ->
  riemannClient lg = None ->
  exists w', emitAll calls l w = Some (tt, w') /\ clients w' = clients w.
Proof.
  intros Hl Hs Hc.
  destruct (emitAll_run l lg sid calls Hs w Hl) as (w' & He & _ & _ & _ & _ & Hcl).
  rewrite Hc in Hcl. exists w'. split; [exact He | exact Hcl].
Qed.

(** X5. The entry points only read the logger: after any run of calls every
    logger object, with its configuration, level and client, is as before. *)
Theorem run_keeps_loggers (calls : list (Severity * Call)) (w : World)
    (l : positive) (lg : Logger) (sid : positive) :
  loggers w !! l = Some lg ->
  stream lg = Some sid ->
  exists w', emitAll calls l w = Some (tt, w') /\ loggers w' = loggers w.
Proof.
  intros Hl Hs.
  destruct (emitAll_run l lg sid calls Hs w Hl) as (w' & He & Hlg & _).
  exists w'. split; [exact He | exact Hlg].
Qed.

Lemma textsFrom_all (lg : Logger) (calls : list (Severity * Call)) :
  LogTrace <= level lg ->
  forall n, List.length (textsFrom lg n calls) = List.length calls.
Proof.
  intros Hlv. induction calls as [| [s c] calls IH]; intros n; [reflexivity |].
  cbn [textsFrom List.length].
  assert (Hr : (rank s <=? level lg) = true).
  { apply Z.leb_le. destruct s; unfold rank, LogFatal, LogError, LogWarn,
      LogInfo, LogDebug, LogTrace in *; lia. }
  rewrite Hr. cbn [List.length]. now rewrite IH.
Qed.

(** X6. At threshold TRACE, and at any higher one such as ALL, every call is
    written: the sink receives as many lines as there are calls. *)
Theorem trace_level_writes_all (calls : list (Severity * Call)) (w : World)
    (l : positive) (lg : Logger) (sid : positive) :
  loggers w !! l = Some lg ->
  stream lg = Some sid ->
  LogTrace <= level lg ->
  exists w', emitAll calls l w = Some (tt, w') /\
    List.length (written w' sid)
    = (List.length (written w sid) + List.length calls)%nat.
Proof.
  intros Hl Hs Hlv.
  destruct (emitAll_run l lg sid calls Hs w Hl) as (w' & He & _ & Hwr & _).
  exists w'. split; [exact He |].
  rewrite Hwr, length_app. now rewrite (textsFrom_all lg calls Hlv).
Qed.

(** ** The gate is monotone *)

Lemma app_one_neq {A} (xs : list A) (x : A) : (xs ++ [x])%list <> xs.
Proof.
  intros E. apply (f_equal (@List.length A)) in E.
  rewrite length_app in E. cbn [List.length] in E. lia.
Qed.

(** X7. Raising the threshold or the severity never loses a line: if a call
    at severity [s1] on a logger of threshold [level lg1] is written, so is a
    call at any severity at least as severe on any logger of a threshold at
    least as high. *)
Theorem gate_monotone (s1 s2 : Severity) (c1 c2 : Call) (w : World)
    (l1 l2 : positive) (lg1 lg2 : Logger) (sid1 sid2 : positive) :
  loggers w !! l1 = Some lg1 ->
  loggers w !! l2 = Some lg2 ->
  stream lg1 = Some sid1 ->
  stream lg2 = Some sid2 ->
  rank s2 <= rank s1 ->
  level lg1 <= level lg2 ->
  exists w1 w2,
    emit s1 c1 l1 w = Some (tt, w1) /\
    emit s2 c2 l2 w = Some (tt, w2) /\
    (written w1 sid1 <> written w sid1 ->
     written w2 sid2 = (written w sid2 ++ [consoleText lg2 w s2 c2])%list).
Proof.
  intros Hl1 Hl2 Hs1 Hs2 Hs Hlv.
  destruct (Z.le_gt_cases (rank s1) (level lg1)) as [Hr | Hr].
  - assert (Hr2 : rank s2 <= level lg2) by lia.
    eexists. eexists.
    split; [apply (emit_pass _ _ _ _ _ _ Hl1 Hs1 Hr) |].
    split; [apply (emit_pass _ _ _ _ _ _ Hl2 Hs2 Hr2) |].
    intros _. unfold written at 1. cbn [sinks]. now rewrite lookup_insert_eq.
  - destruct (emit_Some s2 c2 w l2 lg2 Hl2) as (w2 & He2 & _).
    { intros _. now exists sid2. }
    eexists. exists w2.
    split; [apply (emit_block _ _ _ _ _ Hl1 Hr) |].
    split; [exact He2 |].
    intros Hne. exfalso. apply Hne. reflexivity.
Qed.

(** ** The text of a line *)

Lemma intToLogLevel_percentFree (s : Severity) :
  GoFmt.percentFree (intToLogLevel (rank s)) = true.
Proof. destruct s; reflexivity. Qed.

Lemma noOperands_app (a b : string) :
  GoFmt.percentFree a = true ->
  GoFmt.noOperands (a +:+ b)
  = option_map (fun out => a +:+ out) (GoFmt.noOperands b).
Proof.
  induction a as [| x a IH]; intros H.
  - change ("" +:+ b) with b. destruct (GoFmt.noOperands b); reflexivity.
  - cbn [GoFmt.percentFree] in H. apply andb_prop in H. destruct H as [Hx Ha].
    rewrite append_String. cbn [GoFmt.noOperands].
    destruct (Ascii.eqb x "%"); [discriminate |].
    rewrite (IH Ha). destruct (GoFmt.noOperands b); reflexivity.
Qed.

Lemma render_percentFree (ts lvl prefix : string) :
  GoFmt.percentFree ts = true ->
  GoFmt.percentFree lvl = true ->
  GoFmt.percentFree prefix = true ->
  GoFmt.percentFree (render ts lvl prefix "") = true.
Proof.
  intros H1 H2 H3. unfold render. rewrite !percentFree_app, H1, H2, H3.
  reflexivity.
Qed.

Lemma render_message (ts lvl prefix message : string) :
  render ts lvl prefix message = render ts lvl prefix "" +:+ message.
Proof.
  unfold render. rewrite !append_assoc. reflexivity.
Qed.

(** The formatter on a rendered text whose timestamp and prefix hold no [%]:
    only the message is looked at. *)
Lemma Sprintf_render (lg : Logger) (w : World) (s : Severity)
    (message out : string) :
  GoFmt.percentFree (stamp lg w) = true ->
  GoFmt.percentFree (Prefix (config lg)) = true ->
  GoFmt.noOperands message = Some out ->
  Sprintf (render (stamp lg w) (intToLogLevel (rank s)) (Prefix (config lg))
                  message) []
  = render (stamp lg w) (intToLogLevel (rank s)) (Prefix (config lg)) out.
Proof.
  intros Ht Hp Hm. unfold Sprintf, GoFmt.Sprintf.
  rewrite render_message, noOperands_app, Hm.
  - cbn [option_map]. now rewrite <- render_message.
  - apply render_percentFree;
      [exact Ht | apply intToLogLevel_percentFree | exact Hp].
Qed.

Lemma render_append (ts lvl prefix message tail : string) :
  render ts lvl prefix message +:+ tail
  = render ts lvl prefix (message +:+ tail).
Proof.
  rewrite (render_message ts lvl prefix message),
    (render_message ts lvl prefix (message +:+ tail)).
  now rewrite append_assoc.
Qed.

(** X8. The line variant on text without [%] (message, prefix and timestamp):
    a call that passes the threshold writes the timestamp segment, the level
    name, the prefix and the message, separated by [" | "] and ended by a
    newline; if the entry point forwards, the event carries the message as it
    was given. *)
Theorem line_text_literal (s : Severity) (message : string) (w : World)
    (l : positive) (lg : Logger) (sid : positive) :
  loggers w !! l = Some lg ->
  stream lg = Some sid ->
  GoFmt.percentFree (stamp lg w) = true ->
  GoFmt.percentFree (Prefix (config lg)) = true ->
  GoFmt.percentFree message = true ->
  rank s <= level lg ->
  exists w', emit s (Line message) l w = Some (tt, w') /\
    written w' sid =
      (written w sid ++
       [stamp lg w +:+ intToLogLevel (rank s) +:+ " | "
        +:+ Prefix (config lg) +:+ " | " +:+ message +:+ String "010" ""])%list /\
    forall cl, riemannClient lg = Some cl -> In s [Fatal; Error; Warn; Info] ->
      sent w' cl =
        (sent w cl ++ [{| Service := Prefix (config lg);
                          State := intToLogLevel (rank s);
                          Description := message |}])%list.
Proof.
  intros Hl Hs Ht Hp Hm Hr.
  eexists. split; [apply (emit_pass _ _ _ _ _ _ Hl Hs Hr) |]. split.
  - unfold written at 1. cbn [sinks]. rewrite lookup_insert_eq.
    change (default [] (Some ?x)) with x. do 2 f_equal.
    unfold consoleText. rewrite render_append.
    rewrite (Sprintf_render lg w s _ (message +:+ String "010" "") Ht Hp).
    + reflexivity.
    + apply noOperands_percentFree. now rewrite percentFree_app, Hm.
  - intros cl Hcl Hin.
    match goal with |- sent ?w' cl = _ =>
      destruct (sent_clientsAfter s (Line message) w w' lg cl eq_refl Hcl Hin)
        as [Hsent _] end.
    rewrite Hsent. unfold eventOf. cbn [messageOf operandsOf].
    now rewrite (Sprintf_percentFree message Hm).
Qed.

(** X9. The formatted variant called without operands on text without [%]
    writes the same text as the line variant, without the newline: such calls
    do not end the line they write. *)
Theorem formatted_text_no_newline (s : Severity) (message : string)
    (w : World) (l : positive) (lg : Logger) (sid : positive) :
  loggers w !! l = Some lg ->
  stream lg = Some sid ->
  GoFmt.percentFree (stamp lg w) = true ->
  GoFmt.percentFree (Prefix (config lg)) = true ->
  GoFmt.percentFree message = true ->
  rank s <= level lg ->
  exists w', emit s (Formatted message []) l w = Some (tt, w') /\
    written w' sid =
      (written w sid ++
       [stamp lg w +:+ intToLogLevel (rank s) +:+ " | "
        +:+ Prefix (config lg) +:+ " | " +:+ message])%list.
Proof.
  intros Hl Hs Ht Hp Hm Hr.
  eexists. split; [apply (emit_pass _ _ _ _ _ _ Hl Hs Hr) |].
  unfold written at 1. cbn [sinks]. rewrite lookup_insert_eq.
  change (default [] (Some ?x)) with x. do 2 f_equal.
  unfold consoleText.
  rewrite (Sprintf_render lg w s _ message Ht Hp
             (noOperands_percentFree message Hm)).
  reflexivity.
Qed.

(** X10. The line variant on a message that ends in its only [%]: the
    rendered text goes through the formatter once more, so the console line
    reads the [%] and the newline as a verb without operand, and the event's
    description reads the [%] as a directive without verb. *)
Theorem line_trailing_percent (s : Severity) (body : string) (w : World)
    (l : positive) (lg : Logger) (sid cl : positive) :
  loggers w !! l = Some lg ->
  stream lg = Some sid ->
  riemannClient lg = Some cl ->
  GoFmt.percentFree (stamp lg w) = true ->
  GoFmt.percentFree (Prefix (config lg)) = true ->
  GoFmt.percentFree body = true ->
  rank s <= level lg ->
  In s [Fatal; Error; Warn; Info] ->
  exists w', emit s (Line (body +:+ "%")) l w = Some (tt, w') /\
    written w' sid =
      (written w sid ++
       [stamp lg w +:+ intToLogLevel (rank s) +:+ " | "
        +:+ Prefix (config lg) +:+ " | " +:+ body
        +:+ "%!" +:+ String "010" "(MISSING)"])%list /\
    sent w' cl =
      (sent w cl ++ [{| Service := Prefix (config lg);
                        State := intToLogLevel (rank s);
                        Description := body +:+ "%!(NOVERB)" |}])%list.
Proof.
  intros Hl Hs Hcl Ht Hp Hb Hr Hin.
  eexists. split; [apply (emit_pass _ _ _ _ _ _ Hl Hs Hr) |]. split.
  - unfold written at 1. cbn [sinks]. rewrite lookup_insert_eq.
    change (default [] (Some ?x)) with x. do 2 f_equal.
    unfold consoleText. rewrite render_append.
    rewrite (Sprintf_render lg w s _
               (body +:+ "%!" +:+ String "010" "(MISSING)") Ht Hp).
    + reflexivity.
    + rewrite append_assoc. now rewrite (noOperands_app body _ Hb).
  - match goal with |- sent ?w' cl = _ =>
      destruct (sent_clientsAfter s (Line (body +:+ "%")) w w' lg cl eq_refl
                  Hcl Hin) as [Hsent _] end.
    rewrite Hsent. unfold eventOf, Sprintf, GoFmt.Sprintf.
    cbn [messageOf operandsOf]. now rewrite (noOperands_app body _ Hb).
Qed.

(** ** Registration *)

(** X11. Of two clients registered one after the other, the second one wins:
    the logger refers to it as if the first had never been registered, and
    the next forwarded event goes to the second client and not to the
    first. *)
Theorem UseRiemann_last_wins (s : Severity) (c : Call) (w : World)
    (l : positive) (lg : Logger) (sid c1 c2 : positive) :
  loggers w !! l = Some lg ->
  stream lg = Some sid ->
  c1 <> c2 ->
  In s [Fatal; Error; Warn; Info] ->
  exists w1 w2 w3,
    UseRiemann l (Some c1) w = Some (None, w1) /\
    UseRiemann l (Some c2) w1 = Some (None, w2) /\
    UseRiemann l (Some c2) w = Some (None, w2) /\
    emit s c l w2 = Some (tt, w3) /\
    sent w3 c2 = (sent w c2 ++ [eventOf lg s c])%list /\
    sent w3 c1 = sent w c1.
Proof.
  intros Hl Hs Hne Hin.
  set (lg1 := {| stream := stream lg; config := config lg; level := level lg;
                 riemannClient := Some c1 |}).
  set (w1 := {| loggers := <[l := lg1]> (loggers w); sinks := sinks w;
                clients := clients w; ticks := ticks w |}).
  assert (Hl1 : loggers w1 !! l = Some lg1) by apply lookup_insert_eq.
  set (lg2 := {| stream := stream lg; config := config lg; level := level lg;
                 riemannClient := Some c2 |}).
  set (w2 := {| loggers := <[l := lg2]> (loggers w); sinks := sinks w;
                clients := clients w; ticks := ticks w |}).
  assert (Hl2 : loggers w2 !! l = Some lg2) by apply lookup_insert_eq.
  assert (E2 : UseRiemann l (Some c2) w1 = Some (None, w2)).
  { rewrite (UseRiemann_Some w1 l lg1 c2 Hl1). unfold w2, w1. cbn [loggers sinks
      clients ticks stream config level lg1]. now rewrite insert_insert_eq. }
  destruct (emit_Some s c w2 l lg2 Hl2) as (w3 & He & _ & Hcs & _).
  { intros _. now exists sid. }
  destruct (sent_clientsAfter s c w2 w3 lg2 c2 Hcs eq_refl Hin) as [Hsent Hoth].
  exists w1, w2, w3.
  split; [exact (UseRiemann_Some w l lg c1 Hl) |].
  split; [exact E2 |].
  split; [exact (UseRiemann_Some w l lg c2 Hl) |].
  split; [exact He |].
  split; [exact Hsent | exact (Hoth c1 Hne)].
Qed.

(** X12. Registering the client a logger already refers to changes
    nothing. *)
Theorem UseRiemann_same_client (w : World) (l : positive) (lg : Logger)
    (cl : positive) :
  loggers w !! l = Some lg ->
  riemannClient lg = Some cl ->
  UseRiemann l (Some cl) w = Some (None, w).
Proof.
  intros Hl Hc. rewrite (UseRiemann_Some w l lg cl Hl). rewrite <- Hc.
  replace {| stream := stream lg; config := config lg; level := level lg;
             riemannClient := riemannClient lg |} with lg
    by (destruct lg; reflexivity).
  rewrite (insert_id _ _ _ Hl). destruct w; reflexivity.
Qed.

(** ** Nil receivers and nil sinks *)

(** X13. On an address that holds no logger, as through a nil [*Logger],
    every entry point, [NewModule] and the registration of a client
    panic. *)
Theorem unallocated_logger_panics (s : Severity) (c : Call) (w : World)
    (l : positive) (prefix : string) (cl : positive) :
  loggers w !! l = None ->
  emit s c l w = None /\
  NewModule l prefix w = None /\
  UseRiemann l (Some cl) w = None.
Proof.
  intros Hl.
  assert (Hd : deref l w = None) by (unfold deref; now rewrite Hl).
  split; [| split].
  - destruct s, c; unfold emit, Fatalf, Errorf, Warnf, Infof, Debugf, Tracef,
      Fatalln, Errorln, Warnln, Infoln, Debugln, Traceln, bind;
      now rewrite Hd.
  - unfold NewModule, bind. now rewrite Hd.
  - unfold UseRiemann, bind. now rewrite Hd.
Qed.

(** X14. A logger built on a nil writer panics on exactly the calls that pass
    the threshold; the calls that are filtered out return. *)
Theorem nil_stream_panics_iff_pass (s : Severity) (c : Call) (w : World)
    (l : positive) (lg : Logger) :
  loggers w !! l = Some lg ->
  stream lg = None ->
  emit s c l w = None <-> rank s <= level lg.
Proof.
  intros Hl Hs. split.
  - intros E. destruct (Z.le_gt_cases (rank s) (level lg)) as [Hr | Hr];
      [exact Hr |].
    rewrite (emit_block _ _ _ _ _ Hl Hr) in E. discriminate E.
  - intros Hr.
    assert (Hpf : forall m lvl o, printf l m lvl o w = None).
    { intros. unfold printf, bind, timestampStr.
      rewrite (deref_Some _ _ _ Hl), Hs.
      destruct (AddTimeStamp (config lg)); reflexivity. }
    assert (Hpl : forall m lvl, printLine l m lvl w = None).
    { intros. unfold printLine, bind, timestampStr.
      rewrite (deref_Some _ _ _ Hl), Hs.
      destruct (AddTimeStamp (config lg)); reflexivity. }
    destruct s, c; enter_call Hl;
      (match goal with
       | |- context [?a <=? level lg] =>
           replace (a <=? level lg) with true
             by (symmetry; apply Z.leb_le; exact Hr)
       end);
      first [ now rewrite Hpf | now rewrite Hpl ].
Qed.

(** ** Construction and derivation *)

(** X15. A logger built from [DefaultLoggerConfig] has threshold INFO: a call
    at Fatal, Error, Warn or Info writes one line and reads the clock once
    for its timestamp, a call at Debug or Trace writes nothing and reads no
    clock; no event is submitted, no client being registered yet. *)
Theorem default_config_gate (s : Severity) (c : Call) (w : World)
    (sid : positive) :
  exists l w1 w2,
    NewLogger (Some sid) DefaultLoggerConfig w = Some (l, w1) /\
    emit s c l w1 = Some (tt, w2) /\
    written w2 sid =
      (written w sid ++
       match s with
       | Debug | Trace => []
       | _ => [Sprintf (render (timeNow (ticks w) +:+ " | ")
                               (intToLogLevel (rank s)) "service" (messageOf c)
                        +:+ match c with Line _ => String "010" ""
                                       | Formatted _ _ => "" end)
                       (operandsOf c)]
       end)%list /\
    ticks w2 = (ticks w + match s with Debug | Trace => 0 | _ => 1 end)%nat /\
    clients w2 = clients w.
Proof.
  set (l := fresh (dom (loggers w))).
  set (lg := {| stream := Some sid; config := DefaultLoggerConfig;
                level := logLevelToInt (LogLevel DefaultLoggerConfig);
                riemannClient := None |}).
  set (w1 := {| loggers := <[l := lg]> (loggers w); sinks := sinks w;
                clients := clients w; ticks := ticks w |}).
  assert (Hl : loggers w1 !! l = Some lg) by apply lookup_insert_eq.
  assert (Hlv : level lg = LogInfo) by reflexivity.
  exists l, w1.
  assert (Hnl : forall x : string, x +:+ "" = x).
  { induction x as [| a x IH]; [reflexivity |].
    rewrite append_String. now rewrite IH. }
  destruct s;
    match goal with
    | |- context [emit ?s0 c l w1] =>
        destruct (Z.le_gt_cases (rank s0) (level lg)) as [Hr | Hr];
        try (exfalso; rewrite Hlv in Hr;
             unfold rank, LogFatal, LogError, LogWarn, LogInfo, LogDebug,
               LogTrace in Hr; lia)
    end.
  1-4: eexists; split; [apply NewLogger_Some |];
       split; [apply (emit_pass _ _ _ _ _ _ Hl eq_refl Hr) |];
       split; [| split; [cbn [ticks w1]; unfold ticked; cbn; lia
                        | reflexivity]];
       unfold written at 1; cbn [sinks]; rewrite lookup_insert_eq;
       change (default [] (Some ?x)) with x; do 2 f_equal;
       destruct c; cbn [messageOf operandsOf consoleText];
       [now rewrite Hnl | reflexivity].
  all: eexists; split; [apply NewLogger_Some |];
       split; [apply (emit_block _ _ _ _ _ Hl Hr) |];
       split; [cbn [sinks]; now rewrite app_nil_r |];
       split; [cbn [ticks w1]; lia | reflexivity].
Qed.

(** X16. Derivation chains: a module of a module has the first logger's
    prefix followed by both suffixes, as if derived in one step with the
    suffixes joined, and the first logger's sink, level and client; the three
    loggers are distinct objects, and deriving writes and sends nothing. *)
Theorem NewModule_chain (w : World) (parent : positive) (lg : Logger)
    (a b : string) :
  loggers w !! parent = Some lg ->
  exists child w1 grandchild w2,
    NewModule parent a w = Some (child, w1) /\
    NewModule child b w1 = Some (grandchild, w2) /\
    loggers w2 !! grandchild =
      Some {| stream := stream lg;
              config := {| Prefix := Prefix (config lg) +:+ (a +:+ b);
                           LogLevel := LogLevel (config lg);
                           AddTimeStamp := AddTimeStamp (config lg) |};
              level := level lg;
              riemannClient := riemannClient lg |} /\
    grandchild <> child /\ grandchild <> parent /\ child <> parent /\
    loggers w2 !! parent = Some lg /\
    sinks w2 = sinks w /\ clients w2 = clients w.
Proof.
  intros Hl.
  pose proof (fresh_loggers w parent lg Hl) as Hcp.
  set (child := fresh (dom (loggers w))) in *.
  set (lgc := {| stream := stream lg;
                 config := {| Prefix := Prefix (config lg) +:+ a;
                              LogLevel := LogLevel (config lg);
                              AddTimeStamp := AddTimeStamp (config lg) |};
                 level := level lg;
                 riemannClient := riemannClient lg |}).
  set (w1 := {| loggers := <[child := lgc]> (loggers w); sinks := sinks w;
                clients := clients w; ticks := ticks w |}).
  assert (Hc1 : loggers w1 !! child = Some lgc) by apply lookup_insert_eq.
  assert (Hp1 : loggers w1 !! parent = Some lg)
    by (cbn [w1 loggers]; now rewrite lookup_insert_ne).
  pose proof (fresh_loggers w1 child lgc Hc1) as Hgc.
  pose proof (fresh_loggers w1 parent lg Hp1) as Hgp.
  set (grandchild := fresh (dom (loggers w1))) in *.
  exists child. eexists. exists grandchild. eexists.
  split; [exact (NewModule_Some w parent lg a Hl) |].
  split; [exact (NewModule_Some w1 child lgc b Hc1) |].
  split.
  { cbn [loggers]. rewrite lookup_insert_eq. cbn [lgc stream config level
      riemannClient Prefix LogLevel AddTimeStamp]. now rewrite append_assoc. }
  split; [exact Hgc |]. split; [exact Hgp |]. split; [exact Hcp |].
  split.
  { cbn [loggers]. rewrite lookup_insert_ne by exact Hgp. exact Hp1. }
  split; reflexivity.
Qed.

(** X17. A derived logger writes to its parent's sink, under the parent's
    threshold, lines that carry the joined prefix: on text without [%], a
    line call on the module that passes the parent's threshold appends
    [LEVEL | prefix suffix | message] and a newline, after the timestamp
    segment, to the sink of the parent. *)
Theorem module_line_text (s : Severity) (suffix message : string) (w : World)
    (parent : positive) (lg : Logger) (sid : positive) :
  loggers w !! parent = Some lg ->
  stream lg = Some sid ->
  GoFmt.percentFree (stamp lg w) = true ->
  GoFmt.percentFree (Prefix (config lg)) = true ->
  GoFmt.percentFree suffix = true ->
  GoFmt.percentFree message = true ->
  exists child w1 w2,
    NewModule parent suffix w = Some (child, w1) /\
    emit s (Line message) child w1 = Some (tt, w2) /\
    if rank s <=? level lg
    then written w2 sid =
           (written w sid ++
            [stamp lg w +:+ intToLogLevel (rank s) +:+ " | "
             +:+ (Prefix (config lg) +:+ suffix) +:+ " | " +:+ message
             +:+ String "010" ""])%list
    else sinks w2 = sinks w.
Proof.
  intros Hl Hs Ht Hp Hx Hm.
  set (child := fresh (dom (loggers w))).
  set (lgc := {| stream := stream lg;
                 config := {| Prefix := Prefix (config lg) +:+ suffix;
                              LogLevel := LogLevel (config lg);
                              AddTimeStamp := AddTimeStamp (config lg) |};
                 level := level lg;
                 riemannClient := riemannClient lg |}).
  set (w1 := {| loggers := <[child := lgc]> (loggers w); sinks := sinks w;
                clients := clients w; ticks := ticks w |}).
  assert (Hc1 : loggers w1 !! child = Some lgc) by apply lookup_insert_eq.
  exists child, w1.
  destruct (Z.leb_spec (rank s) (level lg)) as [Hr | Hr].
  - eexists. split; [exact (NewModule_Some w parent lg suffix Hl) |].
    split; [apply (emit_pass s (Line message) w1 child lgc sid Hc1 Hs Hr) |].
    unfold written at 1. cbn [sinks]. rewrite lookup_insert_eq.
    change (default [] (Some ?x)) with x. unfold written. cbn [sinks w1].
    do 2 f_equal. unfold consoleText. rewrite render_append.
    rewrite (Sprintf_render lgc w1 s _ (message +:+ String "010" "")).
    + reflexivity.
    + exact Ht.
    + cbn [lgc config Prefix]. now rewrite percentFree_app, Hp, Hx.
    + apply noOperands_percentFree. now rewrite percentFree_app, Hm.
  - eexists. split; [exact (NewModule_Some w parent lg suffix Hl) |].
    split; [apply (emit_block s (Line message) w1 child lgc Hc1 Hr) |].
    reflexivity.
Qed.

(** ** Names and ranks, the other way round *)

(** X18. A level string that resolves to a rank is, upper-cased, the name of
    that rank; one that does not resolve is rendered back as ["ALL"]. *)
Theorem name_rank_name (s : string) :
  intToLogLevel (logLevelToInt s)
  = if Z.eqb (logLevelToInt s) (-1) then "ALL"
    else GoStrings.ToUpper unicodeUpper s.
Proof.
  unfold logLevelToInt.
  repeat (match goal with
          | |- context [String.eqb ?a ?b] =>
              destruct (String.eqb_spec a b) as [-> | ?]; [reflexivity |]
          end).
  reflexivity.
Qed.

(** X19. [logLevelToInt] returns a defined rank or [-1], and [-1] exactly on
    the strings that are, upper-cased, none of the eight names. *)
Theorem logLevelToInt_range (s : string) :
  -1 <= logLevelToInt s <= 7 /\
  (logLevelToInt s = -1 <->
   ~ In (GoStrings.ToUpper unicodeUpper s) levelNames).
Proof.
  unfold logLevelToInt, levelNames, LogOff, LogFatal, LogError, LogWarn,
    LogInfo, LogDebug, LogTrace, LogAll.
  repeat (match goal with
          | |- context [String.eqb ?a ?b] =>
              destruct (String.eqb_spec a b) as [E | ?];
              [rewrite E; split; [lia |];
               split; [discriminate | intros H; exfalso; apply H; simpl; tauto]
              |]
          end).
  split; [lia |]. split; [| reflexivity].
  intros _ H. simpl in H.
  repeat (destruct H as [H | H]; [congruence |]). exact H.
Qed.

(** ** Level OFF *)

Lemma emitAll_blocked (l : positive) (lg : Logger)
    (calls : list (Severity * Call)) :
  level lg < LogFatal ->
  forall w, loggers w !! l = Some lg ->
  exists w', emitAll calls l w = Some (tt, w') /\
    sinks w' = sinks w /\
    ticks w' = ticks w /\
    match riemannClient lg with
    | Some cl =>
        sent w' cl = (sent w cl ++ eventsOf lg calls)%list /\
        forall cl', cl' <> cl -> sent w' cl' = sent w cl'
    | None => clients w' = clients w
    end.
Proof.
  intros Hlv. induction calls as [| [s c] calls IH]; intros w Hl.
  - exists w. split; [reflexivity |]. split; [reflexivity |].
    split; [reflexivity |].
    destruct (riemannClient lg); [| reflexivity].
    split; [cbn [eventsOf]; now rewrite app_nil_r | reflexivity].
  - assert (Hr : level lg < rank s) by (destruct s; unfold rank, LogFatal,
      LogError, LogWarn, LogInfo, LogDebug, LogTrace in *; lia).
    cbn [emitAll eventsOf]. unfold bind at 1.
    rewrite (emit_block _ _ _ _ _ Hl Hr).
    match goal with |- context [emitAll calls l ?w1] =>
      destruct (IH w1 Hl) as (w' & He & Hsk & Htk & Hcl) end.
    exists w'. split; [exact He |]. split; [exact Hsk |]. split; [exact Htk |].
    unfold clientsAfter in Hcl. destruct (riemannClient lg) as [cl |].
    + destruct Hcl as [Hc1 Hc2]. destruct (forwards s).
      * split.
        -- rewrite Hc1. unfold sent at 1. cbn [clients].
           rewrite lookup_insert_eq. change (default [] (Some ?x)) with x.
           now rewrite <- app_assoc.
        -- intros cl' Hne. rewrite (Hc2 cl' Hne). unfold sent. cbn [clients].
           now rewrite lookup_insert_ne.
      * split; [exact Hc1 | exact Hc2].
    + destruct (forwards s); exact Hcl.
Qed.

(** X20. Level OFF, in any spelling, switches the console off and nothing
    else: on a logger constructed with it, on any writer or none, a run of
    calls writes nothing and reads no clock, and once a client is registered
    the calls at Fatal, Error, Warn and Info still submit their events, in
    order. *)
Theorem off_level_forwards_only (out : option positive)
    (cfg : LoggerConfig) (w : World) (cl : positive)
    (calls : list (Severity * Call)) :
  equalFold (LogLevel cfg) "OFF" ->
  exists l w1 w2 w3,
    NewLogger out cfg w = Some (l, w1) /\
    UseRiemann l (Some cl) w1 = Some (None, w2) /\
    emitAll calls l w2 = Some (tt, w3) /\
    sinks w3 = sinks w /\
    ticks w3 = ticks w /\
    sent w3 cl =
      (sent w cl ++
       eventsOf {| stream := out; config := cfg; level := LogOff;
                   riemannClient := Some cl |} calls)%list.
Proof.
  intros Hoff.
  assert (Hlv : logLevelToInt (LogLevel cfg) = LogOff).
  { unfold equalFold in Hoff. unfold logLevelToInt. rewrite Hoff. reflexivity. }
  set (l := fresh (dom (loggers w))).
  set (lg := {| stream := out; config := cfg;
                level := logLevelToInt (LogLevel cfg);
                riemannClient := None |}).
  set (w1 := {| loggers := <[l := lg]> (loggers w); sinks := sinks w;
                clients := clients w; ticks := ticks w |}).
  assert (Hl : loggers w1 !! l = Some lg) by apply lookup_insert_eq.
  set (lg2 := {| stream := out; config := cfg; level := LogOff;
                 riemannClient := Some cl |}).
  set (w2 := {| loggers := <[l := lg2]> (loggers w1); sinks := sinks w1;
                clients := clients w1; ticks := ticks w1 |}).
  assert (Hl2 : loggers w2 !! l = Some lg2) by apply lookup_insert_eq.
  assert (Hlt : level lg2 < LogFatal) by (cbn; unfold LogOff, LogFatal; lia).
  destruct (emitAll_blocked l lg2 calls Hlt w2 Hl2)
    as (w3 & He & Hsk & Htk & Hsent & _).
  exists l, w1, w2, w3.
  split; [apply NewLogger_Some |].
  split.
  { rewrite (UseRiemann_Some w1 l lg cl Hl). unfold w2, lg2.
    cbn [lg stream config level]. now rewrite Hlv. }
  split; [exact He |]. split; [exact Hsk |]. split; [exact Htk |].
  exact Hsent.
Qed.

End Logger.

(** * The properties at the sample store *)

Lemma console_gate_witness :
  loggers Sample.world !! 5%positive = Some Sample.logger /\
  stream Sample.logger = Some 1%positive /\
  exists w',
    emit string Sample.format Sample.clock Warn (Line string "disk low")
         5%positive Sample.world = Some (tt, w') /\
    if rank Warn <=? level Sample.logger
    then written w' 1 =
           (written Sample.world 1 ++
            [consoleText string Sample.format Sample.clock Sample.logger
                         Sample.world Warn (Line string "disk low")])%list /\
         forall sid', sid' <> 1%positive ->
                      written w' sid' = written Sample.world sid'
    else sinks w' = sinks Sample.world.
Proof.
  split; [reflexivity |]. split; [reflexivity |].
  apply (console_gate string Sample.format Sample.clock Warn
           (Line string "disk low") Sample.world 5%positive Sample.logger
           1%positive); reflexivity.
Defined.

Lemma forwarding_gate_witness :
  loggers Sample.world !! 5%positive = Some Sample.logger /\
  stream Sample.logger = Some 1%positive /\
  riemannClient Sample.logger = Some 7%positive /\
  exists w',
    emit string Sample.format Sample.clock Info (Line string "started")
         5%positive Sample.world = Some (tt, w') /\
    sent w' 7 =
      (sent Sample.world 7 ++
       [{| Service := "svc"; State := "INFO"; Description := "started" |}])%list /\
    forall cl', cl' <> 7%positive -> sent w' cl' = sent Sample.world cl'.
Proof.
  split; [reflexivity |]. split; [reflexivity |]. split; [reflexivity |].
  apply (forwarding_gate string Sample.format Sample.clock Info
           (Line string "started") Sample.world 5%positive Sample.logger
           1%positive 7%positive); reflexivity.
Defined.

Lemma verbose_unknown :
  forall n, In n levelNames ->
            ~ equalFold Sample.upper (LogLevel Sample.verbose) n.
Proof.
  intros n Hin E. simpl in Hin.
  repeat (destruct Hin as [<- | Hin]; [vm_compute in E; discriminate E |]).
  exact Hin.
Qed.

Lemma unknown_level_silent_witness :
  (forall n, In n levelNames ->
             ~ equalFold Sample.upper (LogLevel Sample.verbose) n) /\
  exists l w1 w2,
    NewLogger Sample.upper (Some 1%positive) Sample.verbose emptyWorld
      = Some (l, w1) /\
    emitAll string Sample.format Sample.clock
      [(Fatal, Line string "boom"); (Info, Formatted string "up %v" ["now"])]
      l w1 = Some (tt, w2) /\
    sinks w2 = sinks emptyWorld.
Proof.
  split; [exact verbose_unknown |].
  apply (unknown_level_silent Sample.upper string Sample.format Sample.clock).
  exact verbose_unknown.
Defined.

Lemma NewModule_snapshot_witness :
  loggers Sample.world !! 5%positive = Some Sample.logger /\
  exists child w1 w2,
    NewModule 5%positive ".db" Sample.world = Some (child, w1) /\
    child <> 5%positive /\
    loggers w1 !! 5%positive = Some Sample.logger /\
    (exists lgChild, loggers w1 !! child = Some lgChild /\
                     Prefix (config lgChild) = "svc.db" /\
                     riemannClient lgChild = Some 7%positive) /\
    UseRiemann 5%positive (Some 9%positive) w1 = Some (None, w2) /\
    (exists lgChild, loggers w2 !! child = Some lgChild /\
                     riemannClient lgChild = Some 7%positive).
Proof.
  split; [reflexivity |].
  destruct (NewModule_snapshot string Sample.format Sample.clock Sample.world
              5%positive Sample.logger ".db" 9%positive eq_refl)
    as (child & w1 & w2 & H1 & H2 & H3 & H4 & H5 & _ & H7 & _).
  exists child, w1, w2.
  split; [exact H1 |]. split; [exact H2 |]. split; [exact H3 |].
  split; [eexists; split; [exact H4 | split; reflexivity] |].
  split; [exact H5 |].
  eexists; split; [exact H7 | reflexivity].
Defined.

Lemma UseRiemann_nil_client_witness :
  loggers Sample.world !! 5%positive = Some Sample.logger /\
  stream Sample.logger = Some 1%positive /\
  riemannClient Sample.logger = Some 7%positive /\
  In Error [Fatal; Error; Warn; Info] /\
  (exists w1 w2,
     UseRiemann 5%positive None Sample.world = Some (Some ErrClientNil, w1) /\
     loggers w1 !! 5%positive = Some Sample.logger /\
     emit string Sample.format Sample.clock Error (Line string "lost")
          5%positive w1 = Some (tt, w2) /\
     sent w2 7 =
       (sent w1 7 ++
        [eventOf string Sample.format Sample.logger Error
                 (Line string "lost")])%list) /\
  (exists w1,
     UseRiemann 5%positive (Some 9%positive) Sample.world = Some (None, w1) /\
     loggers w1 =
       <[5%positive := {| stream := stream Sample.logger;
                          config := config Sample.logger;
                          level := level Sample.logger;
                          riemannClient := Some 9%positive |}]>
         (loggers Sample.world) /\
     sinks w1 = sinks Sample.world /\
     clients w1 = clients Sample.world).
Proof.
  split; [reflexivity |]. split; [reflexivity |]. split; [reflexivity |].
  split; [simpl; tauto |].
  destruct (UseRiemann_nil_client string Sample.format Sample.clock
              Sample.world 5%positive) as (_ & Hkeep & Hset).
  split.
  - apply (Hkeep Sample.logger 1%positive 7%positive Error
             (Line string "lost")); try reflexivity. simpl; tauto.
  - apply (Hset Sample.logger 9%positive). reflexivity.
Defined.

Lemma rank_name_roundtrip_witness :
  0 <= 3 <= 7 /\ logLevelToInt Sample.upper (intToLogLevel 3) = 3.
Proof.
  split; [lia |]. apply (rank_name_roundtrip Sample.upper 3). lia.
Defined.

Lemma logLevelToInt_ascii_case_insensitive_witness :
  GoStrings.isASCII "Info" = true /\
  GoStrings.caseVariant "Info" "iNFO" /\
  logLevelToInt Sample.upper "Info" = logLevelToInt Sample.upper "iNFO".
Proof.
  split; [reflexivity |]. split; [simpl; repeat split |].
  apply (logLevelToInt_ascii_case_insensitive Sample.upper "Info" "iNFO").
  - reflexivity.
  - simpl; repeat split.
Defined.

(** C8, as stated, fails on a Unicode case pair: [strings.ToLower] turns
    U+0130 followed by [NFO] into ["info"], so the two are case variants of
    each other, but [strings.ToUpper] leaves U+0130 as it is, so the first
    resolves to no rank and the second to INFO. *)
Lemma dotted_I_case_variant :
  GoStrings.ToLower (GoUnicode.lower (fun x => x))
                    (GoUnicode.dottedI +:+ "NFO") = "info" /\
  logLevelToInt (GoUnicode.upper (fun x => x)) (GoUnicode.dottedI +:+ "NFO")
    = -1 /\
  logLevelToInt (GoUnicode.upper (fun x => x)) "info" = LogInfo /\
  logLevelToInt (GoUnicode.upper (fun x => x)) (GoUnicode.dottedI +:+ "NFO")
    <> logLevelToInt (GoUnicode.upper (fun x => x))
         (GoStrings.ToLower (GoUnicode.lower (fun x => x))
                            (GoUnicode.dottedI +:+ "NFO")).
Proof.
  split; [reflexivity |]. split; [reflexivity |]. split; [reflexivity |].
  vm_compute. discriminate.
Qed.

Lemma intToLogLevel_total_witness :
  (8 < 0 \/ 7 < 8) /\ intToLogLevel 8 = "ALL" /\
  (-1 < 0 \/ 7 < -1) /\ intToLogLevel (-1) = "ALL".
Proof.
  destruct intToLogLevel_total as (_ & _ & _ & _ & _ & _ & _ & _ & H).
  split; [lia |]. split; [apply H; lia |].
  split; [lia |]. apply H; lia.
Defined.

Lemma unknown_level_forwards_witness :
  (forall n, In n levelNames ->
             ~ equalFold Sample.upper (LogLevel Sample.verbose) n) /\
  In Fatal [Fatal; Error; Warn; Info] /\
  exists l w1 w2 w3,
    NewLogger Sample.upper (Some 1%positive) Sample.verbose emptyWorld
      = Some (l, w1) /\
    UseRiemann l (Some 7%positive) w1 = Some (None, w2) /\
    emit string Sample.format Sample.clock Fatal (Line string "boom") l w2
      = Some (tt, w3) /\
    sinks w3 = sinks emptyWorld /\
    sent w3 7 =
      (sent emptyWorld 7 ++
       [{| Service := "svc"; State := "FATAL"; Description := "boom" |}])%list.
Proof.
  split; [exact verbose_unknown |]. split; [simpl; tauto |].
  apply (unknown_level_forwards Sample.upper string Sample.format Sample.clock
           (Some 1%positive) Sample.verbose emptyWorld 7%positive Fatal
           (Line string "boom")).
  - exact verbose_unknown.
  - simpl; tauto.
Defined.

(** * The further properties at the sample store *)

Lemma run_written_in_order_witness :
  loggers Sample.store !! 6%positive = Some Sample.traced /\
  stream Sample.traced = Some 1%positive /\
  exists w',
    emitAll string Sample.format Sample.clock
      [(Debug, Line string "a"); (Fatal, Formatted string "b" [])]
      6%positive Sample.store = Some (tt, w') /\
    written w' 1 =
      ["2014-05-01T12:00:00Z | DEBUG | job | a" +:+ String "010" "";
       "2014-05-01T12:00:00Z | FATAL | job | b"].
Proof.
  split; [reflexivity |]. split; [reflexivity |].
  destruct (run_written_in_order string Sample.format Sample.clock
              [(Debug, Line string "a"); (Fatal, Formatted string "b" [])]
              Sample.store 6%positive Sample.traced 1%positive
              eq_refl eq_refl) as (w' & He & Hw & _).
  exists w'. split; [exact He |]. rewrite Hw. reflexivity.
Defined.

Lemma run_clock_reads_witness :
  loggers Sample.store !! 6%positive = Some Sample.traced /\
  stream Sample.traced = Some 1%positive /\
  exists w',
    emitAll string Sample.format Sample.clock
      [(Debug, Line string "a"); (Fatal, Formatted string "b" [])]
      6%positive Sample.store = Some (tt, w') /\
    (ticks w' + List.length (written Sample.store 1)
     = ticks Sample.store + List.length (written w' 1))%nat.
Proof.
  split; [reflexivity |]. split; [reflexivity |].
  exact (run_clock_reads string Sample.format Sample.clock
           [(Debug, Line string "a"); (Fatal, Formatted string "b" [])]
           Sample.store 6%positive Sample.traced 1%positive eq_refl eq_refl).
Defined.

Lemma run_events_in_order_witness :
  loggers Sample.store !! 5%positive = Some Sample.logger /\
  stream Sample.logger = Some 1%positive /\
  riemannClient Sample.logger = Some 7%positive /\
  exists w',
    emitAll string Sample.format Sample.clock
      [(Info, Line string "a"); (Debug, Line string "b");
       (Error, Line string "c")]
      5%positive Sample.store = Some (tt, w') /\
    sent w' 7 =
      [{| Service := "svc"; State := "INFO"; Description := "a" |};
       {| Service := "svc"; State := "ERROR"; Description := "c" |}].
Proof.
  split; [reflexivity |]. split; [reflexivity |]. split; [reflexivity |].
  destruct (run_events_in_order string Sample.format Sample.clock
              [(Info, Line string "a"); (Debug, Line string "b");
               (Error, Line string "c")]
              Sample.store 5%positive Sample.logger 1%positive 7%positive
              eq_refl eq_refl eq_refl) as (w' & He & Hw & _).
  exists w'. split; [exact He |]. rewrite Hw. reflexivity.
Defined.

Lemma run_without_client_witness :
  loggers Sample.store !! 6%positive = Some Sample.traced /\
  stream Sample.traced = Some 1%positive /\
  riemannClient Sample.traced = None /\
  exists w',
    emitAll string Sample.format Sample.clock
      [(Fatal, Line string "a")] 6%positive Sample.store = Some (tt, w') /\
    clients w' = clients Sample.store.
Proof.
  split; [reflexivity |]. split; [reflexivity |]. split; [reflexivity |].
  exact (run_without_client string Sample.format Sample.clock
           [(Fatal, Line string "a")] Sample.store 6%positive Sample.traced
           1%positive eq_refl eq_refl eq_refl).
Defined.

Lemma run_keeps_loggers_witness :
  loggers Sample.store !! 5%positive = Some Sample.logger /\
  stream Sample.logger = Some 1%positive /\
  exists w',
    emitAll string Sample.format Sample.clock
      [(Fatal, Line string "a")] 5%positive Sample.store = Some (tt, w') /\
    loggers w' = loggers Sample.store.
Proof.
  split; [reflexivity |]. split; [reflexivity |].
  exact (run_keeps_loggers string Sample.format Sample.clock
           [(Fatal, Line string "a")] Sample.store 5%positive Sample.logger
           1%positive eq_refl eq_refl).
Defined.

Lemma trace_level_writes_all_witness :
  loggers Sample.store !! 6%positive = Some Sample.traced /\
  stream Sample.traced = Some 1%positive /\
  LogTrace <= level Sample.traced /\
  exists w',
    emitAll string Sample.format Sample.clock
      [(Trace, Line string "a"); (Debug, Line string "b")]
      6%positive Sample.store = Some (tt, w') /\
    List.length (written w' 1) = 2%nat.
Proof.
  split; [reflexivity |]. split; [reflexivity |].
  split; [unfold Sample.traced, LogTrace; simpl; lia |].
  apply (trace_level_writes_all string Sample.format Sample.clock
           [(Trace, Line string "a"); (Debug, Line string "b")]
           Sample.store 6%positive Sample.traced 1%positive eq_refl eq_refl).
  unfold Sample.traced, LogTrace; simpl; lia.
Defined.

Lemma gate_monotone_witness :
  loggers Sample.store !! 5%positive = Some Sample.logger /\
  loggers Sample.store !! 6%positive = Some Sample.traced /\
  rank Error <= rank Warn /\
  level Sample.logger <= level Sample.traced /\
  exists w1 w2,
    emit string Sample.format Sample.clock Warn (Line string "a") 5%positive
         Sample.store = Some (tt, w1) /\
    emit string Sample.format Sample.clock Error (Line string "b") 6%positive
         Sample.store = Some (tt, w2) /\
    (written w1 1 <> written Sample.store 1 ->
     written w2 1 =
       (written Sample.store 1 ++
        [consoleText string Sample.format Sample.clock Sample.traced
                     Sample.store Error (Line string "b")])%list).
Proof.
  split; [reflexivity |]. split; [reflexivity |].
  split; [unfold rank, LogError, LogWarn; lia |].
  split; [unfold Sample.logger, Sample.traced, LogWarn, LogTrace; simpl; lia |].
  apply (gate_monotone string Sample.format Sample.clock Warn Error
           (Line string "a") (Line string "b") Sample.store
           5%positive 6%positive Sample.logger Sample.traced
           1%positive 1%positive); try reflexivity.
  - unfold rank, LogError, LogWarn; lia.
  - unfold Sample.logger, Sample.traced, LogWarn, LogTrace; simpl; lia.
Defined.

Lemma line_text_literal_witness :
  loggers Sample.store !! 6%positive = Some Sample.traced /\
  GoFmt.percentFree
    (stamp Sample.clock Sample.traced Sample.store) = true /\
  GoFmt.percentFree "job" = true /\
  GoFmt.percentFree "tick" = true /\
  rank Trace <= level Sample.traced /\
  exists w',
    emit string Sample.format Sample.clock Trace (Line string "tick")
         6%positive Sample.store = Some (tt, w') /\
    written w' 1 =
      ["2014-05-01T12:00:00Z | TRACE | job | tick" +:+ String "010" ""].
Proof.
  split; [reflexivity |]. split; [reflexivity |]. split; [reflexivity |].
  split; [reflexivity |]. split; [vm_compute; discriminate |].
  destruct (line_text_literal string Sample.format Sample.clock Trace "tick"
              Sample.store 6%positive Sample.traced 1%positive
              eq_refl eq_refl eq_refl eq_refl eq_refl)
    as (w' & He & Hw & _).
  { vm_compute; discriminate. }
  exists w'. split; [exact He |]. rewrite Hw. reflexivity.
Defined.

Lemma formatted_text_no_newline_witness :
  loggers Sample.store !! 5%positive = Some Sample.logger /\
  GoFmt.percentFree "disk low" = true /\
  rank Warn <= level Sample.logger /\
  exists w',
    emit string Sample.format Sample.clock Warn (Formatted string "disk low" [])
         5%positive Sample.store = Some (tt, w') /\
    written w' 1 = ["WARN | svc | disk low"].
Proof.
  split; [reflexivity |]. split; [reflexivity |].
  split; [vm_compute; discriminate |].
  destruct (formatted_text_no_newline string Sample.format Sample.clock Warn
              "disk low" Sample.store 5%positive Sample.logger 1%positive
              eq_refl eq_refl eq_refl eq_refl eq_refl)
    as (w' & He & Hw).
  { vm_compute; discriminate. }
  exists w'. split; [exact He |]. rewrite Hw. reflexivity.
Defined.

Lemma line_trailing_percent_witness :
  loggers Sample.store !! 5%positive = Some Sample.logger /\
  riemannClient Sample.logger = Some 7%positive /\
  GoFmt.percentFree "disk usage 100" = true /\
  rank Warn <= level Sample.logger /\
  In Warn [Fatal; Error; Warn; Info] /\
  exists w',
    emit string Sample.format Sample.clock Warn (Line string "disk usage 100%")
         5%positive Sample.store = Some (tt, w') /\
    written w' 1 =
      ["WARN | svc | disk usage 100%!" +:+ String "010" "(MISSING)"] /\
    sent w' 7 =
      [{| Service := "svc"; State := "WARN";
          Description := "disk usage 100%!(NOVERB)" |}].
Proof.
  split; [reflexivity |]. split; [reflexivity |]. split; [reflexivity |].
  split; [vm_compute; discriminate |]. split; [simpl; tauto |].
  destruct (line_trailing_percent string Sample.format Sample.clock Warn
              "disk usage 100" Sample.store 5%positive Sample.logger
              1%positive 7%positive eq_refl eq_refl eq_refl eq_refl eq_refl
              eq_refl)
    as (w' & He & Hw & Hs).
  { vm_compute; discriminate. }
  { simpl; tauto. }
  exists w'. split; [exact He |].
  split; [rewrite Hw; reflexivity | rewrite Hs; reflexivity].
Defined.

Lemma UseRiemann_last_wins_witness :
  loggers Sample.store !! 6%positive = Some Sample.traced /\
  stream Sample.traced = Some 1%positive /\
  2%positive <> 3%positive /\
  In Info [Fatal; Error; Warn; Info] /\
  exists w1 w2 w3,
    UseRiemann 6%positive (Some 2%positive) Sample.store = Some (None, w1) /\
    UseRiemann 6%positive (Some 3%positive) w1 = Some (None, w2) /\
    emit string Sample.format Sample.clock Info (Line string "up") 6%positive
         w2 = Some (tt, w3) /\
    List.length (sent w3 3) = 1%nat /\
    sent w3 2 = [].
Proof.
  split; [reflexivity |]. split; [reflexivity |]. split; [discriminate |].
  split; [simpl; tauto |].
  destruct (UseRiemann_last_wins string Sample.format Sample.clock Info
              (Line string "up") Sample.store 6%positive Sample.traced
              1%positive 2%positive 3%positive eq_refl eq_refl)
    as (w1 & w2 & w3 & H1 & H2 & _ & He & Hs3 & Hs2).
  { discriminate. }
  { simpl; tauto. }
  exists w1, w2, w3. split; [exact H1 |]. split; [exact H2 |].
  split; [exact He |].
  split; [rewrite Hs3; reflexivity | rewrite Hs2; reflexivity].
Defined.

Lemma UseRiemann_same_client_witness :
  loggers Sample.store !! 5%positive = Some Sample.logger /\
  riemannClient Sample.logger = Some 7%positive /\
  UseRiemann 5%positive (Some 7%positive) Sample.store
  = Some (None, Sample.store).
Proof.
  split; [reflexivity |]. split; [reflexivity |].
  exact (UseRiemann_same_client Sample.store 5%positive Sample.logger
           7%positive eq_refl eq_refl).
Defined.

Lemma unallocated_logger_panics_witness :
  loggers Sample.store !! 9%positive = None /\
  emit string Sample.format Sample.clock Fatal (Line string "boom") 9%positive
       Sample.store = None /\
  NewModule 9%positive ".db" Sample.store = None /\
  UseRiemann 9%positive (Some 7%positive) Sample.store = None.
Proof.
  split; [reflexivity |].
  exact (unallocated_logger_panics string Sample.format Sample.clock Fatal
           (Line string "boom") Sample.store 9%positive ".db" 7%positive
           eq_refl).
Defined.

Lemma nil_stream_panics_iff_pass_witness :
  loggers Sample.store !! 8%positive = Some Sample.mute /\
  stream Sample.mute = None /\
  (emit string Sample.format Sample.clock Error (Line string "boom")
        8%positive Sample.store = None <-> rank Error <= level Sample.mute).
Proof.
  split; [reflexivity |]. split; [reflexivity |].
  exact (nil_stream_panics_iff_pass string Sample.format Sample.clock Error
           (Line string "boom") Sample.store 8%positive Sample.mute
           eq_refl eq_refl).
Defined.

Lemma NewModule_chain_witness :
  loggers Sample.store !! 5%positive = Some Sample.logger /\
  exists child w1 grandchild w2,
    NewModule 5%positive ".db" Sample.store = Some (child, w1) /\
    NewModule child ".pool" w1 = Some (grandchild, w2) /\
    (exists lg, loggers w2 !! grandchild = Some lg /\
                Prefix (config lg) = "svc.db.pool") /\
    grandchild <> child.
Proof.
  split; [reflexivity |].
  destruct (NewModule_chain Sample.store 5%positive Sample.logger ".db"
              ".pool" eq_refl)
    as (child & w1 & grandchild & w2 & H1 & H2 & H3 & H4 & _).
  exists child, w1, grandchild, w2.
  split; [exact H1 |]. split; [exact H2 |].
  split; [eexists; split; [exact H3 | reflexivity] | exact H4].
Defined.

Lemma module_line_text_witness :
  loggers Sample.store !! 5%positive = Some Sample.logger /\
  stream Sample.logger = Some 1%positive /\
  GoFmt.percentFree ".db" = true /\
  GoFmt.percentFree "open" = true /\
  exists child w1 w2,
    NewModule 5%positive ".db" Sample.store = Some (child, w1) /\
    emit string Sample.format Sample.clock Error (Line string "open") child w1
      = Some (tt, w2) /\
    written w2 1 = ["ERROR | svc.db | open" +:+ String "010" ""].
Proof.
  split; [reflexivity |]. split; [reflexivity |]. split; [reflexivity |].
  split; [reflexivity |].
  destruct (module_line_text string Sample.format Sample.clock Error ".db"
              "open" Sample.store 5%positive Sample.logger 1%positive
              eq_refl eq_refl eq_refl eq_refl eq_refl eq_refl)
    as (child & w1 & w2 & H1 & H2 & H3).
  exists child, w1, w2. split; [exact H1 |]. split; [exact H2 |].
  exact H3.
Defined.

Lemma off_level_forwards_only_witness :
  equalFold Sample.upper "Off" "OFF" /\
  exists l w1 w2 w3,
    NewLogger Sample.upper None
      {| Prefix := "svc"; LogLevel := "Off"; AddTimeStamp := true |}
      emptyWorld = Some (l, w1) /\
    UseRiemann l (Some 7%positive) w1 = Some (None, w2) /\
    emitAll string Sample.format Sample.clock
      [(Fatal, Line string "boom"); (Trace, Line string "step")] l w2
      = Some (tt, w3) /\
    sinks w3 = sinks emptyWorld /\
    sent w3 7 =
      [{| Service := "svc"; State := "FATAL"; Description := "boom" |}].
Proof.
  split; [reflexivity |].
  destruct (off_level_forwards_only Sample.upper string Sample.format
              Sample.clock None
              {| Prefix := "svc"; LogLevel := "Off"; AddTimeStamp := true |}
              emptyWorld 7%positive
              [(Fatal, Line string "boom"); (Trace, Line string "step")]
              eq_refl)
    as (l & w1 & w2 & w3 & H1 & H2 & H3 & H4 & _ & H6).
  exists l, w1, w2, w3. split; [exact H1 |]. split; [exact H2 |].
  split; [exact H3 |]. split; [exact H4 |]. rewrite H6. reflexivity.
Defined.
